(** * github_keys_sync: a shallow embedding of [github_keys_sync.py]

    The script fetches SSH public keys from a GitHub directory, imports
    them as EC2 key pairs, prunes stale key pairs, renders a cloud-init
    file and uploads it to S3.

    Modelling conventions
    - a Python [str] is the list of its Unicode code points ([list N]);
    - a [dict] is an association list in insertion order with unique keys;
    - the outside world (HTTP, EC2, S3, the jinja template) answers every
      call as a function of the calls made so far; every call is recorded
      in the world together with its outcome;
    - exceptions are values of [exn]; a computation is a state-and-error
      monad over [World];
    - [print] is not modelled, so the warning of lines 95-96 leaves no
      trace; creating a [boto3] client and writing [/tmp/init.conf] are
      taken to succeed. *)

From Stdlib Require Import Ascii String.
From stdpp Require Import base list sorting gmap.

Local Open Scope N_scope.

(** ** Python strings *)

Abbreviation pystr := (list N).

(** An ASCII literal as a Python string. *)
Definition py (s : string) : pystr :=
  (fun a => N_of_ascii a) <$> list_ascii_of_string s.

Arguments py : simpl never.

Definition LF : N := 10.
Definition CR : N := 13.

(** [str.isspace] on one code point (CPython's [_PyUnicode_IsWhitespace]). *)
Definition is_space (c : N) : bool :=
  ((9 <=? c) && (c <=? 13)) || ((28 <=? c) && (c <=? 32))
  || (c =? 133) || (c =? 160) || (c =? 5760)
  || ((8192 <=? c) && (c <=? 8202))
  || (c =? 8232) || (c =? 8233) || (c =? 8239) || (c =? 8287) || (c =? 12288).

(** The line boundaries of [str.splitlines] (CPython's
    [_PyUnicode_IsLinebreak]); CR LF counts as one boundary. *)
Definition is_linebreak (c : N) : bool :=
  ((10 <=? c) && (c <=? 13)) || ((28 <=? c) && (c <=? 30))
  || (c =? 133) || (c =? 8232) || (c =? 8233).

Fixpoint drop_while (p : N -> bool) (s : pystr) : pystr :=
  match s with
  | [] => []
  | c :: s' => if p c then drop_while p s' else s
  end.

Definition lstrip_by (p : N -> bool) (s : pystr) : pystr := drop_while p s.
Definition rstrip_by (p : N -> bool) (s : pystr) : pystr :=
  reverse (drop_while p (reverse s)).

(** [s.strip()] *)
Definition strip (s : pystr) : pystr := rstrip_by is_space (lstrip_by is_space s).

(** [s.strip(chars)] *)
Definition strip_chars (chars s : pystr) : pystr :=
  let p c := bool_decide (c ∈ chars) in
  rstrip_by p (lstrip_by p s).

(** [s.rstrip(chars)] *)
Definition rstrip_chars (chars s : pystr) : pystr :=
  rstrip_by (fun c => bool_decide (c ∈ chars)) s.

(** [s.splitlines(True)]: [cur] is the line being read. *)
Fixpoint splitlines_from (cur s : pystr) : list pystr :=
  match s with
  | [] => match cur with [] => [] | _ => [cur] end
  | c :: s' =>
      if c =? CR then
        match s' with
        | d :: s'' =>
            if d =? LF then (cur ++ [c; d]) :: splitlines_from [] s''
            else (cur ++ [c]) :: splitlines_from [] s'
        | [] => (cur ++ [c]) :: splitlines_from [] s'
        end
      else if is_linebreak c then (cur ++ [c]) :: splitlines_from [] s'
      else splitlines_from (cur ++ [c]) s'
  end.

Definition splitlines_keepends (s : pystr) : list pystr := splitlines_from [] s.

(** The truth value of [s.strip("\r\n").strip()]: a non-empty string. *)
Definition line_is_kept (s : pystr) : bool :=
  match strip (strip_chars [CR; LF] s) with
  | [] => false
  | _ => true
  end.

(** ["".join([s for s in key.strip().splitlines(True)
              if s.strip("\r\n").strip()])]
    (lines 31 and 53). *)
Definition remove_blank_lines (key : pystr) : pystr :=
  concat (filter (fun s => line_is_kept s = true) (splitlines_keepends (strip key))).

(** [s.split(sep)] for a one-character separator. *)
Fixpoint split_from (sep : N) (cur s : pystr) : list pystr :=
  match s with
  | [] => [cur]
  | c :: s' =>
      if c =? sep then cur :: split_from sep [] s'
      else split_from sep (cur ++ [c]) s'
  end.

Definition split (sep : N) (s : pystr) : list pystr := split_from sep [] s.

Fixpoint is_prefix (sub s : pystr) : bool :=
  match sub, s with
  | [], _ => true
  | _ :: _, [] => false
  | a :: sub', b :: s' => (a =? b) && is_prefix sub' s'
  end.

(** [s.find(sub)]: the least index where [sub] occurs, [-1] if none. *)
Fixpoint find_from (sub s : pystr) (i : Z) : Z :=
  if is_prefix sub s then i
  else match s with
       | [] => (-1)%Z
       | _ :: s' => find_from sub s' (i + 1)%Z
       end.

Definition find (s sub : pystr) : Z := find_from sub s 0%Z.

(** [a == b] on strings. *)
Definition str_eqb (a b : pystr) : bool := bool_decide (a = b).

(** [a <= b] on strings: lexicographic on code points. *)
Fixpoint str_leb (a b : pystr) : bool :=
  match a, b with
  | [], _ => true
  | _ :: _, [] => false
  | x :: a', y :: b' => (x <? y) || ((x =? y) && str_leb a' b')
  end.

Definition str_le (a b : pystr) : Prop := str_leb a b = true.

#[global] Instance str_le_dec a b : Decision (str_le a b).
Proof. unfold str_le. apply _. Defined.

(** [l.sort()] on a list of strings. *)
Definition py_sort (l : list pystr) : list pystr := merge_sort str_le l.


(** ** Exceptions, the outside world and the state of a run *)

(** Exceptions raised inside a library call or by the interpreter while
    it evaluates an expression of the script. *)
Inductive lib_exn : Type :=
  | ClientError (code : pystr)
      (* [botocore.exceptions.ClientError] with [e.response['Error']['Code']] *)
  | OtherException (name : string).
      (* any other subclass of [Exception] *)

Inductive exn : Type :=
  | ConnectionError (msg : string) (status_code : Z) (reason : pystr)
      (* the built-in raised on line 14 *)
  | PyException (msg : string)
      (* [raise Exception(msg)], lines 46 and 131 *)
  | Lib (e : lib_exn).

(** One entry of the directory listing; only [each['name']] is read. *)
Record KeyFile := { name : pystr }.

(** What the script reads of a [requests] response. [content_utf8] is
    [resp.content.decode('utf-8')], [None] when the bytes are not UTF-8. *)
Record Response := {
  status_code : Z;
  reason : pystr;
  url : pystr;
  content_utf8 : option pystr
}.

Abbreviation headers := (list (pystr * pystr)).

(** A call to a remote collaborator together with what it answered
    ([inl]/[Some]: the exception it raised). *)
Inductive Event : Type :=
  | EvGet (u : pystr) (h : headers) (o : lib_exn + Response)
  | EvImportKeyPair (KeyName PublicKeyMaterial : pystr) (o : option lib_exn)
  | EvDescribeKeyPairs (o : lib_exn + list pystr)
  | EvDeleteKeyPair (KeyName : pystr) (o : option lib_exn)
  | EvUploadFile (Filename : pystr) (Bucket : option pystr) (Key : pystr) (o : option lib_exn).

(** The collaborators. Each remote answer may depend on every call made
    before it. [json_loads] is [json.loads] on a directory listing
    ([None]: it raises); [render_init_j2] is opening [init.j2], parsing it
    and rendering it with [users=items]. *)
Record Outside := {
  requests_get : list Event -> pystr -> headers -> lib_exn + Response;
  json_loads : pystr -> option (list KeyFile);
  render_init_j2 : list (pystr * pystr) -> lib_exn + pystr;
  import_key_pair : list Event -> pystr -> pystr -> option lib_exn;
  describe_key_pairs : list Event -> lib_exn + list pystr;
  delete_key_pair : list Event -> pystr -> option lib_exn;
  upload_file : list Event -> pystr -> option pystr -> pystr -> option lib_exn
}.

Record World := {
  environ : gmap (list N) (list N);   (* [os.environ] *)
  init_conf : option pystr;           (* [/tmp/init.conf], [None] when it is no regular file *)
  events : list Event                 (* remote calls so far, oldest first *)
}.

Definition add_events (evs : list Event) (w : World) : World :=
  {| environ := environ w; init_conf := init_conf w; events := events w ++ evs |}.

Definition add_event (ev : Event) (w : World) : World := add_events [ev] w.

Definition write_init_conf (s : pystr) (w : World) : World :=
  {| environ := environ w; init_conf := Some s; events := events w |}.

(** Calls to the cloud provider: EC2 key pairs and the S3 upload. *)
Definition is_cloud_call (ev : Event) : bool :=
  match ev with
  | EvGet _ _ _ => false
  | EvImportKeyPair _ _ _ => true
  | EvDescribeKeyPairs _ => true
  | EvDeleteKeyPair _ _ => true
  | EvUploadFile _ _ _ _ => true
  end.

(** ** The monad of a run: state plus exceptions *)

Inductive Res (A : Type) : Type :=
  | Ret (a : A)
  | Raise (e : exn).
Arguments Ret {A} a.
Arguments Raise {A} e.

Definition M (A : Type) : Type := World -> Res A * World.

Definition ret {A} (a : A) : M A := fun w => (Ret a, w).
Definition raise {A} (e : exn) : M A := fun w => (Raise e, w).
Definition bind {A B} (m : M A) (k : A -> M B) : M B :=
  fun w => match m w with
           | (Ret a, w') => k a w'
           | (Raise e, w') => (Raise e, w')
           end.

(** [try: m except Exception as e: ...]: the exception becomes a value. *)
Definition try {A} (m : M A) : M (exn + A) :=
  fun w => match m w with
           | (Ret a, w') => (Ret (inr a), w')
           | (Raise e, w') => (Ret (inl e), w')
           end.

Notation "'let*' x ':=' m 'in' k" := (bind m (fun x => k))
  (at level 10, x name, m at level 100, k at level 200).

Definition of_sum {A} (o : lib_exn + A) : Res A :=
  match o with inl e => Raise (Lib e) | inr a => Ret a end.
Definition of_opt (o : option lib_exn) : Res unit :=
  match o with Some e => Raise (Lib e) | None => Ret tt end.

(** [str(x)] for [x] a string or [None]. *)
Definition str_of (x : option pystr) : pystr :=
  match x with Some s => s | None => py "None" end.

(** [d[k] = v] on an insertion-ordered dict. *)
Fixpoint dict_set (d : list (pystr * pystr)) (k v : pystr) : list (pystr * pystr) :=
  match d with
  | [] => [(k, v)]
  | (k', v') :: d' => if str_eqb k' k then (k, v) :: d' else (k', v') :: dict_set d' k v
  end.

Definition gh_key : pystr := py "-gh-key".

(** [sep.join(l)] *)
Fixpoint join (sep : pystr) (l : list pystr) : pystr :=
  match l with
  | [] => []
  | [x] => x
  | x :: l' => x ++ sep ++ join sep l'
  end.

(** [json.dumps] of a flat dict of plain ASCII words. *)
Definition dumps (d : list (string * string)) : pystr :=
  let quoted s := [34] ++ py s ++ [34] in
  py "{" ++ join (py ", ") ((fun kv => quoted kv.1 ++ py ": " ++ quoted kv.2) <$> d) ++ py "}".

(** The value returned by [upload_aws_key_pairs]: [False] or a list. *)
Inductive py_result : Type :=
  | PyFalse
  | PyList (l : list pystr).

(** The truth value Python gives it in [if not x]. *)
Definition truthy (x : py_result) : bool :=
  match x with
  | PyFalse => false
  | PyList [] => false
  | PyList (_ :: _) => true
  end.

(** The [context] argument: line 194 tests identity with the literal
    ['local'] of the module, which only that very object passes. *)
Inductive PyContext : Type :=
  | LocalLiteral
  | OtherObject.

(** The [event] argument, seen through the one expression that reads it,
    [str(loads(event['body'])['repository']['id'])]; [None] when it raises. *)
Record LambdaEvent := { repository_id : option pystr }.

Record HttpResponse := { statusCode : Z; body : pystr }.

Section Script.
Context (out : Outside).

(** *** Primitive calls *)

Definition http_get (u : pystr) (h : headers) : M Response :=
  fun w => let o := requests_get out (events w) u h in
           (of_sum o, add_event (EvGet u h o) w).

Definition ec2_import_key_pair (KeyName PublicKeyMaterial : pystr) : M unit :=
  fun w => let o := import_key_pair out (events w) KeyName PublicKeyMaterial in
           (of_opt o, add_event (EvImportKeyPair KeyName PublicKeyMaterial o) w).

Definition ec2_describe_key_pairs : M (list pystr) :=
  fun w => let o := describe_key_pairs out (events w) in
           (of_sum o, add_event (EvDescribeKeyPairs o) w).

Definition ec2_delete_key_pair (KeyName : pystr) : M unit :=
  fun w => let o := delete_key_pair out (events w) KeyName in
           (of_opt o, add_event (EvDeleteKeyPair KeyName o) w).

Definition s3_upload_file (Filename : pystr) (Bucket : option pystr) (Key : pystr) : M unit :=
  fun w => let o := upload_file out (events w) Filename Bucket Key in
           (of_opt o, add_event (EvUploadFile Filename Bucket Key o) w).

(** [os.environ.get(k)] *)
Definition environ_get (k : pystr) : M (option pystr) :=
  fun w => (Ret (environ w !! k), w).

(** [os.path.isfile('/tmp/init.conf')] *)
Definition isfile_init_conf : M bool :=
  fun w => (Ret (match init_conf w with Some _ => true | None => false end), w).

(** [resp.content.decode('utf-8')] *)
Definition decode_utf8 (resp : Response) : M pystr :=
  match content_utf8 resp with
  | Some s => ret s
  | None => raise (Lib (OtherException "UnicodeDecodeError"))
  end.

(** *** The functions of the script *)

Definition get_repo_contents (dir_path : pystr) (hdrs : headers) : M (list KeyFile) :=
  let* resp := http_get dir_path hdrs in
  if ((100 <=? status_code resp) && (status_code resp <? 600)
      && negb (status_code resp =? 200))%Z
  then raise (ConnectionError "Error: Bad response" (status_code resp) (reason resp))
  else
    let* text := decode_utf8 resp in
    match json_loads out text with
    | Some contents => ret contents
    | None => raise (Lib (OtherException "JSONDecodeError"))
    end.

(** The loop of lines 24-36. *)
Fixpoint fetch_users_loop (contents : list KeyFile) (dir_path : pystr) (hdrs : headers)
    (user_keys : list (pystr * pystr)) : M (list (pystr * pystr)) :=
  match contents with
  | [] => ret user_keys
  | each :: rest =>
      let file_path := dir_path ++ name each in
      let username := default [] (head (split 46 (name each))) in
      let* resp := http_get file_path hdrs in
      let* key := decode_utf8 resp in
      let ssh_key := remove_blank_lines key in
      fetch_users_loop rest dir_path hdrs (dict_set user_keys username ssh_key)
  end.

Definition fetch_users (contents : list KeyFile) (dir_path : pystr) (hdrs : headers)
    : M (list (pystr * pystr)) :=
  fetch_users_loop contents dir_path hdrs [].

Definition render_template (user_keys : list (pystr * pystr)) : M unit :=
  match user_keys with
  | [] => raise (PyException "ERROR: No users fetched from GitHub")
  | _ :: _ =>
      match render_init_j2 out user_keys with
      | inl e => raise (Lib e)
      | inr config =>
          let clean_config := remove_blank_lines config in
          fun w => (Ret tt, write_init_conf clean_config w)
      end
  end.

Definition upload_to_s3 (bucket_name : option pystr) : M bool :=
  let file_path := py "/tmp/init.conf" in
  let filename := default [] (last (split 47 file_path)) in
  let* config := isfile_init_conf in
  if negb config then ret false
  else
    let* r := try (s3_upload_file file_path bucket_name filename) in
    match r with
    | inl error => ret false
    | inr _ => ret true
    end.

(** The loop of lines 92-112; [None] is the [return False] of line 109.
    The first handler (lines 103-106) has no branch for a [ClientError]
    with another code: the exception is caught and the loop goes on. *)
Fixpoint import_loop (items : list (pystr * pystr)) (imported_keys existing_keys : list pystr)
    : M (option (list pystr * list pystr)) :=
  match items with
  | [] => ret (Some (imported_keys, existing_keys))
  | (user, key) :: rest =>
      let key_name := user ++ gh_key in
      let* r := try (ec2_import_key_pair key_name key) in
      match r with
      | inl (Lib (ClientError code)) =>
          if str_eqb code (py "InvalidKeyPair.Duplicate")
          then import_loop rest imported_keys (existing_keys ++ [key_name])
          else import_loop rest imported_keys existing_keys
      | inl _ => ret None
      | inr _ => import_loop rest (imported_keys ++ [key_name]) existing_keys
      end
  end.

Definition upload_aws_key_pairs (users : list (pystr * pystr)) : M py_result :=
  let* r := import_loop users [] [] in
  match r with
  | None => ret PyFalse
  | Some (imported_keys, existing_keys) =>
      let all_aws_keys := existing_keys ++ imported_keys in
      ret (PyList (py_sort all_aws_keys))
  end.

(** The loop of lines 146-153. *)
Fixpoint clean_loop (github_keys aws_key_pairs aws_deleted_keys : list pystr)
    : M (list pystr) :=
  match aws_key_pairs with
  | [] => ret aws_deleted_keys
  | key :: rest =>
      if bool_decide (key ∈ github_keys)
      then clean_loop github_keys rest aws_deleted_keys
      else
        let* _ := ec2_delete_key_pair key in
        clean_loop github_keys rest (aws_deleted_keys ++ [key])
  end.

Definition clean_aws_key_pairs (github_keys : py_result) : M (list pystr) :=
  match github_keys with
  | PyFalse | PyList [] =>
      raise (PyException "ERROR: No AWS key pairs found that match GitHub")
  | PyList github_keys =>
      let* key_pairs := ec2_describe_key_pairs in
      let aws_key_pairs :=
        py_sort (filter (fun key_name => find key_name gh_key <> (-1)%Z) key_pairs) in
      clean_loop github_keys aws_key_pairs []
  end.

Definition github_auth_handler (req_id : pystr) : M bool :=
  let* v := environ_get (py "repo_id") in
  let expected_id := str_of v in
  if str_eqb expected_id req_id then ret true else ret false.

Definition http_response (status : Z) : HttpResponse :=
  if (status =? 200)%Z then
    {| statusCode := 200; body := dumps [("Status", "SUCCESS")%string] |}
  else if (status =? 403)%Z then
    {| statusCode := 403; body := dumps [("Access", "DENIED")%string] |}
  else
    {| statusCode := 500; body := dumps [("Status", "FAILED")%string] |}.

(** Lines 194-204: [true] when the run goes on to line 206. *)
Definition auth_check (event : LambdaEvent) (context : PyContext) : M bool :=
  match context with
  | LocalLiteral => ret true
  | OtherObject =>
      match repository_id event with
      | None => raise (Lib (OtherException "KeyError"))
      | Some req_repo_id => github_auth_handler req_repo_id
      end
  end.

(** Lines 206-219: configuration, listing, fetch and render. *)
Definition fetch_and_render : M (list (pystr * pystr) * option pystr) :=
  let* dir := environ_get (py "contents_url") in
  match dir with
  | None => raise (Lib (OtherException "AttributeError"))
  | Some dir =>
      let dir := rstrip_chars (py "/") dir ++ py "/" in
      let* github_token := environ_get (py "github_token") in
      let* s3_bucket := environ_get (py "s3_bucket") in
      match github_token with
      | None => raise (Lib (OtherException "TypeError"))
      | Some github_token =>
          let hdrs := [(py "Authorization", py "token " ++ github_token);
                       (py "Accept", py "application/vnd.github.v3.raw")] in
          let* data := get_repo_contents dir hdrs in
          let* users := fetch_users data dir hdrs in
          let* _ := render_template users in
          ret (users, s3_bucket)
      end
  end.

Definition lambda_handler (event : LambdaEvent) (context : PyContext) : M HttpResponse :=
  let* authorized := auth_check event context in
  if negb authorized then ret (http_response 403)
  else
    let* p := fetch_and_render in
    let users := p.1 in
    let s3_bucket := p.2 in
    let* aws_key_pairs := upload_aws_key_pairs users in
    if negb (truthy aws_key_pairs) then ret (http_response 500)
    else
      let* _ := clean_aws_key_pairs aws_key_pairs in
      let* uploaded := upload_to_s3 s3_bucket in
      if uploaded then ret (http_response 200) else ret (http_response 500).

End Script.

(** ** Notions used to state the properties *)

(** Follows the words of the specification: the text with every line
    that is empty or holds only line-ending characters removed. *)
Definition without_blank_lines (text : pystr) : pystr :=
  concat (filter (fun l => ~ Forall (fun c => is_linebreak c = true) l)
                 (splitlines_keepends text)).

(** A name carries the provenance marker. *)
Definition has_marker (key_name : pystr) : Prop := find key_name gh_key <> (-1)%Z.

(** The registry key names derived from the users of a map. *)
Definition derived_names (users : list (pystr * pystr)) : list pystr :=
  (fun kv => kv.1 ++ gh_key) <$> users.

(** The names a run registered, and those the provider reported as
    duplicates, read off the recorded calls. *)
Definition imported_of (evs : list Event) : list pystr :=
  omap (fun ev => match ev with
                  | EvImportKeyPair n _ None => Some n
                  | _ => None
                  end) evs.

Definition existing_of (evs : list Event) : list pystr :=
  omap (fun ev => match ev with
                  | EvImportKeyPair n _ (Some (ClientError code)) =>
                      if str_eqb code (py "InvalidKeyPair.Duplicate") then Some n else None
                  | _ => None
                  end) evs.

(** The names whose registration was attempted. *)
Definition attempted_of (evs : list Event) : list pystr :=
  omap (fun ev => match ev with
                  | EvImportKeyPair n _ _ => Some n
                  | _ => None
                  end) evs.

(** The names whose deletion was requested. *)
Definition deleted_of (evs : list Event) : list pystr :=
  omap (fun ev => match ev with
                  | EvDeleteKeyPair n _ => Some n
                  | _ => None
                  end) evs.

(** An import event whose outcome does not end the loop: success or a
    [ClientError]. *)
Definition is_nonfatal_import (ev : Event) : bool :=
  match ev with
  | EvImportKeyPair _ _ None => true
  | EvImportKeyPair _ _ (Some (ClientError _)) => true
  | _ => false
  end.

(** An import event that ends the loop: any other exception. *)
Definition is_fatal_import (ev : Event) : bool :=
  match ev with
  | EvImportKeyPair _ _ (Some (OtherException _)) => true
  | _ => false
  end.

(** Every registration of the run that starts after the calls [hist]
    succeeds or fails with the duplicate error. *)
Fixpoint registrations_ok (out : Outside) (hist : list Event) (items : list (pystr * pystr))
    : bool :=
  match items with
  | [] => true
  | (user, key) :: rest =>
      let o := import_key_pair out hist (user ++ gh_key) key in
      match o with
      | None => true
      | Some (ClientError code) => str_eqb code (py "InvalidKeyPair.Duplicate")
      | Some (OtherException _) => false
      end
      && registrations_ok out (hist ++ [EvImportKeyPair (user ++ gh_key) key o]) rest
  end.

(** Every deletion of the names [targets], requested in this order after
    the calls [hist], succeeds. *)
Fixpoint deletes_ok (out : Outside) (hist : list Event) (targets : list pystr) : bool :=
  match targets with
  | [] => true
  | n :: rest =>
      match delete_key_pair out hist n with
      | None => deletes_ok out (hist ++ [EvDeleteKeyPair n None]) rest
      | Some _ => false
      end
  end.

(** The names Clean has to delete: the marked names of the registry, in
    sorted order, that the import result does not hold. *)
Definition stale_names (github_keys key_pairs : list pystr) : list pystr :=
  filter (fun key => key ∉ github_keys) (py_sort (filter has_marker key_pairs)).

(** The names held by an import result; [False] holds none. *)
Definition names_of (r : py_result) : list pystr :=
  match r with
  | PyFalse => []
  | PyList l => l
  end.

(** [os.environ[k] = v] *)
Definition set_env (k v : pystr) (w : World) : World :=
  {| environ := <[k := v]> (environ w); init_conf := init_conf w; events := events w |}.

(** The three response shapes. *)
Definition response_success : HttpResponse :=
  {| statusCode := 200;
     body := py "{" ++ [34] ++ py "Status" ++ [34] ++ py ": " ++ [34] ++ py "SUCCESS" ++ [34] ++ py "}" |}.
Definition response_denied : HttpResponse :=
  {| statusCode := 403;
     body := py "{" ++ [34] ++ py "Access" ++ [34] ++ py ": " ++ [34] ++ py "DENIED" ++ [34] ++ py "}" |}.
Definition response_failed : HttpResponse :=
  {| statusCode := 500;
     body := py "{" ++ [34] ++ py "Status" ++ [34] ++ py ": " ++ [34] ++ py "FAILED" ++ [34] ++ py "}" |}.

Definition no_users_fetched : exn := PyException "ERROR: No users fetched from GitHub".

(** A line with its terminator, as [splitlines(True)] returns every line
    but possibly the last: a body free of line boundaries, then CR LF or one
    boundary character. *)
Definition terminated_line (l : pystr) : Prop :=
  exists body term,
    l = body ++ term
    /\ Forall (fun c => is_linebreak c = false) body
    /\ (term = [CR; LF] \/ exists c, term = [c] /\ is_linebreak c = true).

(** A last line that has no terminator. *)
Definition open_line (l : pystr) : Prop :=
  l <> [] /\ Forall (fun c => is_linebreak c = false) l.

(** Terminated lines, then possibly one open line. *)
Fixpoint lines_shape (ls : list pystr) : Prop :=
  match ls with
  | [] => True
  | l :: ls' =>
      match ls' with
      | [] => terminated_line l \/ open_line l
      | _ :: _ => terminated_line l /\ lines_shape ls'
      end
  end.

(** The user name of a key file: [each['name'].split('.')[0]], line 26. *)
Definition username_of (each : KeyFile) : pystr :=
  default [] (head (split 46 (name each))).

(** [d.get(k)] on an insertion-ordered dict. *)
Fixpoint dict_get (d : list (pystr * pystr)) (k : pystr) : option pystr :=
  match d with
  | [] => None
  | (k', v) :: d' => if str_eqb k' k then Some v else dict_get d' k
  end.

(** The headers of lines 212-213 for the token [t]. *)
Definition github_headers (t : pystr) : headers :=
  [(py "Authorization", py "token " ++ t);
   (py "Accept", py "application/vnd.github.v3.raw")].

(** The addresses requested by the recorded calls. *)
Definition requested_of (evs : list Event) : list pystr :=
  omap (fun ev => match ev with
                  | EvGet u _ _ => Some u
                  | _ => None
                  end) evs.

Definition is_get (ev : Event) : bool :=
  match ev with
  | EvGet _ _ _ => true
  | _ => false
  end.

(** A request that was answered with a body that decodes as UTF-8. *)
Definition is_fetched (ev : Event) : bool :=
  match ev with
  | EvGet _ _ (inr resp) =>
      match content_utf8 resp with
      | Some _ => true
      | None => false
      end
  | _ => false
  end.

(** The error of line 131. *)
Definition no_match : exn := PyException "ERROR: No AWS key pairs found that match GitHub".

(** ** A simulated outside world

    A file server answering 200 for the listing and for the files it
    holds (404 otherwise), an EC2 registry that starts from
    [initial_registry] and follows the imports and deletions of the run,
    reporting a duplicate for a name it already holds, and an S3 that
    accepts every upload. [import_fault] injects an import failure for
    chosen key names; [template] is the rendering of [init.j2]. *)
Module Sim.

Definition listing_json (listing : list KeyFile) : pystr :=
  py "[" ++ join (py ", ") ((fun f => py "{" ++ [34] ++ py "name" ++ [34] ++ py ": "
                                        ++ [34] ++ name f ++ [34] ++ py "}") <$> listing)
  ++ py "]".

Definition registry_step (reg : list pystr) (ev : Event) : list pystr :=
  match ev with
  | EvImportKeyPair n _ None => reg ++ [n]
  | EvDeleteKeyPair n None => filter (fun m => m <> n) reg
  | _ => reg
  end.

Definition registry (initial_registry : list pystr) (hist : list Event) : list pystr :=
  foldl registry_step initial_registry hist.

Definition ok (u : pystr) (text : pystr) : Response :=
  {| status_code := 200; reason := py "OK"; url := u; content_utf8 := Some text |}.

Definition not_found (u : pystr) : Response :=
  {| status_code := 404; reason := py "Not Found"; url := u;
     content_utf8 := Some (py "404: Not Found") |}.

Fixpoint lookup_file (files : list (pystr * pystr)) (dir_path u : pystr) : option pystr :=
  match files with
  | [] => None
  | (f, text) :: files' =>
      if str_eqb u (dir_path ++ f) then Some text else lookup_file files' dir_path u
  end.

Definition world (dir_path : pystr) (listing : list KeyFile) (files : list (pystr * pystr))
    (template : list (pystr * pystr) -> lib_exn + pystr)
    (initial_registry : list pystr) (import_fault : pystr -> option lib_exn) : Outside :=
  {| requests_get hist u h :=
       if str_eqb u dir_path then inr (ok u (listing_json listing))
       else match lookup_file files dir_path u with
            | Some text => inr (ok u text)
            | None => inr (not_found u)
            end;
     json_loads text :=
       if str_eqb text (listing_json listing) then Some listing else None;
     render_init_j2 := template;
     import_key_pair hist n k :=
       match import_fault n with
       | Some e => Some e
       | None =>
           if bool_decide (n ∈ registry initial_registry hist)
           then Some (ClientError (py "InvalidKeyPair.Duplicate"))
           else None
       end;
     describe_key_pairs hist := inr (registry initial_registry hist);
     delete_key_pair hist n := None;
     upload_file hist f b k := None |}.

(** A template that writes one [ssh-authorized-keys] entry per user. *)
Definition template (items : list (pystr * pystr)) : lib_exn + pystr :=
  inr (py "#cloud-config" ++ [LF] ++ [LF] ++ py "users:" ++ [LF]
       ++ concat ((fun kv => py "  - name: " ++ kv.1 ++ [LF]
                             ++ py "    ssh-authorized-keys: " ++ kv.2 ++ [LF] ++ [LF]) <$> items)).

Definition dir_path : pystr := py "https://api.github.com/repos/org/keys/contents/pub/".

Definition env : gmap (list N) (list N) :=
  <[py "contents_url" := py "https://api.github.com/repos/org/keys/contents/pub"]>
  (<[py "github_token" := py "t0ken"]>
  (<[py "s3_bucket" := py "bucket"]>
  (<[py "repo_id" := py "42"]> ∅))).

Definition start : World := {| environ := env; init_conf := None; events := [] |}.

Definition alice_pub : KeyFile := {| name := py "alice.pub" |}.
Definition alice_key : pystr := py "ssh-rsa AAAA..." ++ [LF; LF].

(** The end-to-end scenario of the specification: one key file, a
    registry that holds a stale [bob-gh-key]. *)
Definition scenario : Outside :=
  world dir_path [alice_pub] [(py "alice.pub", alice_key)] template
        [py "bob-gh-key"] (fun _ => None).

(** The file of the listing is missing on the server: its fetch answers 404. *)
Definition missing_file : Outside :=
  world dir_path [alice_pub] [] template [] (fun _ => None).

(** The listing is empty. *)
Definition empty_listing : Outside :=
  world dir_path [] [] template [py "bob-gh-key"] (fun _ => None).

Definition bob_pub : KeyFile := {| name := py "bob.pub" |}.
Definition two_users : list (pystr * pystr) :=
  [(py "alice", py "ssh-ed25519 AAAA"); (py "bob", py "ssh-rsa BBBB")].

(** The provider rejects the key of alice with a [ClientError] that is
    not the duplicate error. *)
Definition reject_alice (n : pystr) : option lib_exn :=
  if str_eqb n (py "alice-gh-key") then Some (ClientError (py "InvalidKey.Format")) else None.

Definition rejecting : Outside :=
  world dir_path [alice_pub; bob_pub]
        [(py "alice.pub", py "ssh-ed25519 AAAA"); (py "bob.pub", py "ssh-rsa BBBB")]
        template [] reject_alice.



(** The provider rejects every key with a [ClientError] that is not the
    duplicate error. *)
Definition rejecting_all : Outside :=
  world dir_path [alice_pub; bob_pub]
        [(py "alice.pub", py "ssh-rsa AAAA"); (py "bob.pub", py "ssh-rsa BBBB")]
        template [] (fun _ => Some (ClientError (py "UnauthorizedOperation"))).

(** The registry already holds the key pair of alice. *)
Definition half_registered : Outside :=
  world dir_path [alice_pub; bob_pub]
        [(py "alice.pub", py "ssh-rsa AAAA"); (py "bob.pub", py "ssh-rsa BBBB")]
        template [py "alice-gh-key"; py "carol-gh-key"; py "ops"] (fun _ => None).

Definition fetched_users : list (pystr * pystr) :=
  [(py "alice", py "ssh-rsa AAAA"); (py "bob", py "ssh-rsa BBBB")].

Definition alice_txt : KeyFile := {| name := py "alice.txt" |}.

(** Two files of the same user: [alice.pub], then [alice.txt]. *)
Definition renamed : Outside :=
  world dir_path [alice_pub; alice_txt]
        [(py "alice.pub", py "ssh-rsa OLD"); (py "alice.txt", py "ssh-rsa NEW")]
        template [] (fun _ => None).

(** The registry of [half_registered], with a provider that refuses to
    delete [carol-gh-key]. *)
Definition undeletable : Outside :=
  {| requests_get := requests_get half_registered;
     json_loads := json_loads half_registered;
     render_init_j2 := render_init_j2 half_registered;
     import_key_pair := import_key_pair half_registered;
     describe_key_pairs hist :=
       inr [py "dave-gh-key"; py "carol-gh-key"; py "alice-gh-key"; py "ops"];
     delete_key_pair hist n :=
       if str_eqb n (py "carol-gh-key")
       then Some (ClientError (py "UnauthorizedOperation")) else None;
     upload_file := upload_file half_registered |}.

Definition local_event : LambdaEvent := {| repository_id := None |}.
Definition webhook (id : pystr) : LambdaEvent := {| repository_id := Some id |}.

End Sim.


(** ** Facts about the string functions *)

Section Strings.

Lemma drop_while_split p s :
  exists pre, s = pre ++ drop_while p s /\ Forall (fun c => p c = true) pre.
Proof.
  induction s as [|c s [pre [E F]]]; simpl.
  - exists []. split; [done | constructor].
  - destruct (p c) eqn:Hc.
    + exists (c :: pre). split; [simpl; by f_equal | by constructor].
    + exists []. split; [done | constructor].
Qed.

Lemma drop_while_head p s c r : drop_while p s = c :: r -> p c = false.
Proof.
  induction s as [|d s IH]; simpl; [done |].
  destruct (p d) eqn:Hd; [done |]. intros [= -> _]. done.
Qed.

Lemma drop_while_nil p s :
  drop_while p s = [] <-> Forall (fun c => p c = true) s.
Proof.
  split.
  - intros E. destruct (drop_while_split p s) as [pre [Hs F]].
    rewrite E, app_nil_r in Hs. by subst.
  - induction 1 as [|c s Hc _ IH]; simpl; [done | by rewrite Hc].
Qed.

Lemma drop_while_Forall (p q : N -> bool) s :
  (forall c, q c = true -> p c = true) ->
  Forall (fun c => p c = true) (drop_while q s) <-> Forall (fun c => p c = true) s.
Proof.
  intros Hqp. induction s as [|c s IH]; simpl; [done |].
  destruct (q c) eqn:Hc; [| done].
  rewrite IH. split.
  - intros H. constructor; auto.
  - by inversion 1.
Qed.

Lemma reverse_eq_nil (s : pystr) : reverse s = [] <-> s = [].
Proof.
  split; [| by intros ->].
  intros E. apply (f_equal reverse) in E. by rewrite reverse_involutive in E.
Qed.

(** What a strip leaves is empty exactly when every character is stripped. *)
Lemma strip_by_nil p s :
  rstrip_by p (lstrip_by p s) = [] <-> Forall (fun c => p c = true) s.
Proof.
  unfold rstrip_by, lstrip_by.
  rewrite reverse_eq_nil, drop_while_nil, Forall_reverse.
  by apply drop_while_Forall.
Qed.

(** A strip by [q] keeps every character that [q] rejects. *)
Lemma strip_by_Forall (p q : N -> bool) s :
  (forall c, q c = true -> p c = true) ->
  Forall (fun c => p c = true) (rstrip_by q (lstrip_by q s))
  <-> Forall (fun c => p c = true) s.
Proof.
  intros Hqp. unfold rstrip_by, lstrip_by.
  rewrite Forall_reverse, (drop_while_Forall p q) by done.
  rewrite Forall_reverse. by apply drop_while_Forall.
Qed.

Lemma line_is_kept_false s :
  line_is_kept s = false <-> Forall (fun c => is_space c = true) s.
Proof.
  unfold line_is_kept.
  rewrite <- (strip_by_Forall is_space (fun c => bool_decide (c ∈ [CR; LF])) s).
  - unfold strip at 1, strip_chars. rewrite <- strip_by_nil.
    destruct (rstrip_by is_space _); split; done.
  - intros c Hc. apply bool_decide_eq_true in Hc.
    repeat (apply elem_of_cons in Hc as [-> | Hc]; [reflexivity |]).
    by apply elem_of_nil in Hc.
Qed.

Lemma line_is_kept_true s :
  line_is_kept s = true <-> Exists (fun c => is_space c = false) s.
Proof.
  rewrite <- not_false_iff_true, line_is_kept_false.
  induction s as [|c s IH].
  - split; [intros H; destruct H; constructor | by inversion 1].
  - rewrite Exists_cons, <- IH, Forall_cons. destruct (is_space c); intuition congruence.
Qed.

Lemma splitlines_from_cons cur c s :
  splitlines_from cur (c :: s) =
  if c =? CR then
    match s with
    | d :: s'' =>
        if d =? LF then (cur ++ [c; d]) :: splitlines_from [] s''
        else (cur ++ [c]) :: splitlines_from [] s
    | [] => (cur ++ [c]) :: splitlines_from [] s
    end
  else if is_linebreak c then (cur ++ [c]) :: splitlines_from [] s
  else splitlines_from (cur ++ [c]) s.
Proof. reflexivity. Qed.

Lemma splitlines_from_concat n : forall s cur,
  (length s <= n)%nat -> concat (splitlines_from cur s) = cur ++ s.
Proof.
  induction n as [|n IH]; intros [|c s] cur Hn;
    try (destruct cur; simpl; by rewrite ?app_nil_r); [simpl in Hn; lia |].
  rewrite splitlines_from_cons.
  destruct (c =? CR); [destruct s as [|d s]; [| destruct (d =? LF)] |
                       destruct (is_linebreak c)];
    cbn [concat]; rewrite IH by (simpl in *; lia); by rewrite <- app_assoc.
Qed.

Lemma splitlines_from_nonempty n : forall s cur,
  (length s <= n)%nat -> Forall (fun l => l <> []) (splitlines_from cur s).
Proof.
  assert (Hsnoc : forall (cur : pystr) l, l <> [] -> cur ++ l <> [])
    by (intros cur l Hl H; by apply app_eq_nil in H as [_ ?]).
  induction n as [|n IH]; intros [|c s] cur Hn;
    try (destruct cur; by repeat constructor); [simpl in Hn; lia |].
  rewrite splitlines_from_cons.
  destruct (c =? CR); [destruct s as [|d s]; [| destruct (d =? LF)] |
                       destruct (is_linebreak c)];
    try (constructor; [by apply Hsnoc |]); apply IH; simpl in *; lia.
Qed.

(** The lines of a text, with their terminators, make up the text. *)
Lemma splitlines_keepends_concat s : concat (splitlines_keepends s) = s.
Proof. apply (splitlines_from_concat (length s)). lia. Qed.

Lemma splitlines_keepends_nonempty s :
  Forall (fun l => l <> []) (splitlines_keepends s).
Proof. apply (splitlines_from_nonempty (length s)). lia. Qed.

(** A stripped text does not end with a whitespace character. *)
Lemma strip_last s c : last (strip s) = Some c -> is_space c = false.
Proof.
  unfold strip, rstrip_by. intros H.
  destruct (drop_while is_space (reverse (lstrip_by is_space s))) as [|d r] eqn:E;
    [by rewrite reverse_nil in H |].
  rewrite reverse_cons, last_snoc in H. injection H as <-.
  by apply drop_while_head in E.
Qed.

(** The last line of a stripped text is retained, so the result ends with
    the last character of the stripped text. *)
Lemma remove_blank_lines_last key :
  last (remove_blank_lines key) = last (strip key).
Proof.
  unfold remove_blank_lines.
  pose proof (splitlines_keepends_concat (strip key)) as Hc.
  pose proof (splitlines_keepends_nonempty (strip key)) as Hne.
  destruct (splitlines_keepends (strip key)) as [|l0 ls0] using rev_ind.
  - simpl in Hc. by rewrite <- Hc.
  - apply Forall_app in Hne as [_ Hne]. inversion_clear Hne as [|? ? Hl _].
    destruct (last l0) as [c|] eqn:El; [| by apply last_None in El].
    apply last_Some in El as [l' ->].
    assert (Hsp : is_space c = false).
    { apply (strip_last key). rewrite <- Hc, concat_app. simpl.
      by rewrite app_nil_r, app_assoc, last_snoc. }
    rewrite filter_app, filter_cons_True, filter_nil.
    + rewrite <- Hc, !concat_app. simpl. by rewrite !app_nil_r, !app_assoc, !last_snoc.
    + apply line_is_kept_true, Exists_app. right. by constructor.
Qed.

End Strings.

(** ** The order on strings and [sort] *)

Section Order.

Lemma str_leb_refl a : str_leb a a = true.
Proof.
  induction a as [|x a IH]; simpl; [done |].
  rewrite N.eqb_refl, IH. by rewrite orb_true_r.
Qed.

#[global] Instance str_le_total : Total str_le.
Proof.
  intros a. unfold str_le.
  induction a as [|x a IH]; intros [|y b]; simpl; auto.
  destruct (N.ltb_spec x y), (N.ltb_spec y x), (N.eqb_spec x y), (N.eqb_spec y x);
    simpl; auto; try lia.
Qed.

#[global] Instance str_le_trans : Transitive str_le.
Proof.
  intros a. unfold str_le.
  induction a as [|x a IH]; intros [|y b] [|z c]; simpl; auto; try done.
  destruct (N.ltb_spec x y), (N.ltb_spec y z), (N.ltb_spec x z),
    (N.eqb_spec x y), (N.eqb_spec y z), (N.eqb_spec x z);
    simpl; auto; try lia; try done.
  apply IH.
Qed.

#[global] Instance str_le_antisymm : AntiSymm (=) str_le.
Proof.
  intros a. unfold str_le.
  induction a as [|x a IH]; intros [|y b]; simpl; auto; try done.
  destruct (N.ltb_spec x y), (N.ltb_spec y x), (N.eqb_spec x y), (N.eqb_spec y x);
    simpl; try lia; try done.
  intros H1 H2. subst. f_equal. by apply IH.
Qed.

Lemma py_sort_Permutation l : py_sort l ≡ₚ l.
Proof. apply merge_sort_Permutation. Qed.

Lemma py_sort_Sorted l : Sorted str_le (py_sort l).
Proof. apply Sorted_merge_sort, _. Qed.

(** [sort] depends on the elements only, not on their order. *)
Lemma py_sort_perm l1 l2 : l1 ≡ₚ l2 -> py_sort l1 = py_sort l2.
Proof.
  intros H. apply (Sorted_unique str_le); try apply py_sort_Sorted.
  by rewrite !py_sort_Permutation.
Qed.

Lemma py_sort_elem_of l x : x ∈ py_sort l <-> x ∈ l.
Proof. by rewrite py_sort_Permutation. Qed.

Lemma py_sort_NoDup l : NoDup l -> NoDup (py_sort l).
Proof. by rewrite py_sort_Permutation. Qed.

(** A sublist of a sorted list is sorted. *)
Lemma filter_Sorted (P : pystr -> Prop) `{!forall x, Decision (P x)} l :
  Sorted str_le l -> Sorted str_le (filter P l).
Proof.
  intros HS. apply Sorted_StronglySorted in HS; [| apply _].
  apply StronglySorted_Sorted.
  induction HS as [|x l Hl IH Hx]; [constructor |].
  rewrite filter_cons. destruct (decide (P x)); [| done].
  constructor; [done |].
  apply Forall_forall. intros y Hy. apply list_elem_of_filter in Hy as [_ Hy].
  rewrite Forall_forall in Hx. by apply Hx.
Qed.

End Order.

(** ** The world and the monad *)

Section Runs.
Context (out : Outside).

Lemma add_events_nil w : add_events [] w = w.
Proof. destruct w. unfold add_events. simpl. by rewrite app_nil_r. Qed.

Lemma add_events_app evs1 evs2 w :
  add_events evs2 (add_events evs1 w) = add_events (evs1 ++ evs2) w.
Proof. unfold add_events. simpl. by rewrite app_assoc. Qed.

Lemma add_events_cons ev evs w :
  add_events evs (add_event ev w) = add_events (ev :: evs) w.
Proof. unfold add_event. by rewrite add_events_app. Qed.

Lemma bind_ret {A B} (m : M A) (k : A -> M B) w a w' :
  m w = (Ret a, w') -> bind m k w = k a w'.
Proof. unfold bind. by intros ->. Qed.

Lemma bind_raise {A B} (m : M A) (k : A -> M B) w e w' :
  m w = (Raise e, w') -> bind m k w = (Raise e, w').
Proof. unfold bind. by intros ->. Qed.

(** *** The import loop *)

(** One turn of the loop of lines 92-112. *)
Lemma import_loop_cons user key rest imp ex w :
  import_loop out ((user, key) :: rest) imp ex w =
  let o := import_key_pair out (events w) (user ++ gh_key) key in
  let w' := add_event (EvImportKeyPair (user ++ gh_key) key o) w in
  match o with
  | None => import_loop out rest (imp ++ [user ++ gh_key]) ex w'
  | Some (ClientError code) =>
      if str_eqb code (py "InvalidKeyPair.Duplicate")
      then import_loop out rest imp (ex ++ [user ++ gh_key]) w'
      else import_loop out rest imp ex w'
  | Some (OtherException _) => (Ret None, w')
  end.
Proof.
  cbn [import_loop]. unfold bind, try, ec2_import_key_pair.
  destruct (import_key_pair out (events w) (user ++ gh_key) key) as [[code|nm]|];
    cbn; try destruct (str_eqb code _); reflexivity.
Qed.

Lemma import_loop_ok items : forall imp ex w,
  registrations_ok out (events w) items = true ->
  exists evs,
    import_loop out items imp ex w
    = (Ret (Some (imp ++ imported_of evs, ex ++ existing_of evs)), add_events evs w)
    /\ existing_of evs ++ imported_of evs ≡ₚ derived_names items.
Proof.
  induction items as [|[user key] rest IH]; intros imp ex w Hok.
  - exists []. simpl. by rewrite !app_nil_r, add_events_nil.
  - rewrite import_loop_cons. cbn [registrations_ok] in Hok.
    apply andb_true_iff in Hok as [Ho Hrest].
    destruct (import_key_pair out (events w) (user ++ gh_key) key) as [[code|nm]|] eqn:Eo;
      cbv beta iota zeta in Ho |- *; [| done |].
    + rewrite Ho.
      destruct (IH imp (ex ++ [user ++ gh_key]) (add_event (EvImportKeyPair (user ++ gh_key) key (Some (ClientError code))) w) Hrest)
        as [evs [Hrun Hperm]].
      exists (EvImportKeyPair (user ++ gh_key) key (Some (ClientError code)) :: evs).
      rewrite Hrun, add_events_cons. unfold existing_of, imported_of in *.
      cbn [omap list_omap]. rewrite Ho. cbn [mbind option_bind]. split.
      * by rewrite <- app_assoc.
      * simpl. by constructor.
    + destruct (IH (imp ++ [user ++ gh_key]) ex (add_event (EvImportKeyPair (user ++ gh_key) key None) w) Hrest)
        as [evs [Hrun Hperm]].
      exists (EvImportKeyPair (user ++ gh_key) key None :: evs).
      rewrite Hrun, add_events_cons. unfold existing_of, imported_of in *.
      cbn [omap list_omap]. split.
      * by rewrite <- app_assoc.
      * simpl. rewrite <- Permutation_middle. by constructor.
Qed.

(** Whatever the provider answers, the loop either stops at the first
    exception that is no [ClientError], or attempts every key. *)
Lemma import_loop_spec items : forall imp ex w,
  exists evs,
    (import_loop out items imp ex w).2 = add_events evs w
    /\ attempted_of evs = take (length evs) (derived_names items)
    /\ (((import_loop out items imp ex w).1 = Ret None
         /\ exists evs0 ev, evs = evs0 ++ [ev] /\ is_fatal_import ev = true
                            /\ Forall (fun e => is_nonfatal_import e = true) evs0)
        \/ ((import_loop out items imp ex w).1
            = Ret (Some (imp ++ imported_of evs, ex ++ existing_of evs))
            /\ Forall (fun e => is_nonfatal_import e = true) evs
            /\ length evs = length items)).
Proof.
  induction items as [|[user key] rest IH]; intros imp ex w.
  - exists []. simpl. rewrite !app_nil_r, add_events_nil. repeat split. right. done.
  - rewrite import_loop_cons.
    destruct (import_key_pair out (events w) (user ++ gh_key) key) as [[code|nm]|] eqn:Eo;
      cbv beta iota zeta.
    + set (ev := EvImportKeyPair (user ++ gh_key) key (Some (ClientError code))).
      assert (exists imp' ex',
        (if str_eqb code (py "InvalidKeyPair.Duplicate")
         then import_loop out rest imp (ex ++ [user ++ gh_key]) (add_event ev w)
         else import_loop out rest imp ex (add_event ev w))
        = import_loop out rest imp' ex' (add_event ev w)
        /\ forall evs, (imp' ++ imported_of evs, ex' ++ existing_of evs)
                       = (imp ++ imported_of (ev :: evs), ex ++ existing_of (ev :: evs)))
        as (imp' & ex' & -> & Hacc).
      { unfold existing_of, imported_of, ev. cbn [omap list_omap].
        destruct (str_eqb code _); eexists _, _; (split; [reflexivity |]);
          intros evs; cbn [mbind option_bind]; by rewrite <- ?app_assoc. }
      destruct (IH imp' ex' (add_event ev w)) as (evs & Hw & Hatt & Hres).
      exists (ev :: evs). rewrite Hw, add_events_cons. split; [done |]. split.
      { unfold attempted_of in *. cbn. by rewrite Hatt. }
      destruct Hres as [(Hr & evs0 & ev' & -> & Hf & Hnf) | (Hr & Hnf & Hlen)].
      * left. split; [done |]. exists (ev :: evs0), ev'. repeat split; try done.
        by constructor.
      * right. rewrite Hr, Hacc. repeat split; [by constructor | simpl; by rewrite Hlen].
    + set (ev := EvImportKeyPair (user ++ gh_key) key (Some (OtherException nm))).
      exists [ev]. repeat split. left. split; [done |]. exists [], ev. by repeat split.
    + set (ev := EvImportKeyPair (user ++ gh_key) key None).
      destruct (IH (imp ++ [user ++ gh_key]) ex (add_event ev w)) as (evs & Hw & Hatt & Hres).
      exists (ev :: evs). rewrite Hw, add_events_cons. split; [done |]. split.
      { unfold attempted_of in *. cbn. by rewrite Hatt. }
      destruct Hres as [(Hr & evs0 & ev' & -> & Hf & Hnf) | (Hr & Hnf & Hlen)].
      * left. split; [done |]. exists (ev :: evs0), ev'. repeat split; try done.
        by constructor.
      * right. rewrite Hr. unfold imported_of, existing_of. cbn [omap list_omap ev].
        cbn [mbind option_bind]. rewrite <- app_assoc.
        repeat split; [by constructor | simpl; by rewrite Hlen].
Qed.

Lemma upload_aws_key_pairs_run users w :
  upload_aws_key_pairs out users w =
  (match (import_loop out users [] [] w).1 with
   | Ret (Some (imp, ex)) => Ret (PyList (py_sort (ex ++ imp)))
   | Ret None => Ret PyFalse
   | Raise e => Raise e
   end, (import_loop out users [] [] w).2).
Proof.
  unfold upload_aws_key_pairs, bind.
  destruct (import_loop out users [] [] w) as [[[[imp ex]|]|e] w']; reflexivity.
Qed.

(** *** The clean loop *)

(** One turn of the loop of lines 146-153. *)
Lemma clean_loop_cons l key rest deleted w :
  clean_loop out l (key :: rest) deleted w =
  if bool_decide (key ∈ l) then clean_loop out l rest deleted w
  else
    let o := delete_key_pair out (events w) key in
    let w' := add_event (EvDeleteKeyPair key o) w in
    match o with
    | None => clean_loop out l rest (deleted ++ [key]) w'
    | Some e => (Raise (Lib e), w')
    end.
Proof.
  cbn [clean_loop]. destruct (bool_decide (key ∈ l)); [done |].
  unfold bind, ec2_delete_key_pair.
  destruct (delete_key_pair out (events w) key); reflexivity.
Qed.

(** Whatever the provider answers, only names of [aws] that [l] does not
    hold are deleted, and a normal return lists all of them. *)
Lemma clean_loop_safe l aws : forall deleted w,
  exists evs,
    (clean_loop out l aws deleted w).2 = add_events evs w
    /\ (forall n, n ∈ deleted_of evs -> n ∈ aws /\ n ∉ l)
    /\ (forall d, (clean_loop out l aws deleted w).1 = Ret d ->
                  d = deleted ++ filter (fun key => key ∉ l) aws).
Proof.
  induction aws as [|key rest IH]; intros deleted w.
  - exists []. rewrite add_events_nil. split; [done |]. split.
    + intros n Hn. by apply elem_of_nil in Hn.
    + simpl. intros d [= <-]. by rewrite app_nil_r.
  - rewrite clean_loop_cons, filter_cons.
    destruct (bool_decide_reflect (key ∈ l)) as [Hin | Hin].
    + destruct (IH deleted w) as (evs & Hw & Hdel & Hret).
      exists evs. split; [done |]. split.
      * intros n Hn. destruct (Hdel n Hn). split; [by right | done].
      * intros d Hd. rewrite decide_False by (intros ?; done). by apply Hret.
    + rewrite decide_True by done.
      destruct (delete_key_pair out (events w) key) as [e|] eqn:Eo; cbv beta iota zeta.
      * exists [EvDeleteKeyPair key (Some e)]. split; [done |]. split; [| done].
        intros n Hn. apply list_elem_of_singleton in Hn as ->. split; [by left | done].
      * destruct (IH (deleted ++ [key]) (add_event (EvDeleteKeyPair key None) w))
          as (evs & Hw & Hdel & Hret).
        exists (EvDeleteKeyPair key None :: evs). rewrite Hw, add_events_cons.
        split; [done |]. split.
        -- intros n Hn. unfold deleted_of in Hn. cbn in Hn.
           apply elem_of_cons in Hn as [-> | Hn]; [split; [by left | done] |].
           destruct (Hdel n Hn). split; [by right | done].
        -- intros d Hd. rewrite (Hret d Hd). by rewrite <- app_assoc.
Qed.

(** When every deletion succeeds the loop deletes each stale name once,
    in order, and returns them. *)
Lemma clean_loop_ok l aws : forall deleted w,
  deletes_ok out (events w) (filter (fun key => key ∉ l) aws) = true ->
  clean_loop out l aws deleted w
  = (Ret (deleted ++ filter (fun key => key ∉ l) aws),
     add_events ((fun n => EvDeleteKeyPair n None) <$> filter (fun key => key ∉ l) aws) w).
Proof.
  induction aws as [|key rest IH]; intros deleted w.
  - intros _. simpl. by rewrite app_nil_r, add_events_nil.
  - rewrite clean_loop_cons, filter_cons.
    destruct (bool_decide_reflect (key ∈ l)) as [Hin | Hin].
    + rewrite decide_False by (intros ?; done). apply IH.
    + rewrite decide_True by done. cbn [deletes_ok].
      destruct (delete_key_pair out (events w) key) as [e|]; [done |].
      intros Hok. cbv beta iota zeta. rewrite IH by done.
      by rewrite add_events_cons, <- app_assoc.
Qed.

Lemma elem_of_stale_names l names n :
  n ∈ stale_names l names <-> n ∈ names /\ has_marker n /\ n ∉ l.
Proof.
  unfold stale_names.
  rewrite list_elem_of_filter, py_sort_elem_of, list_elem_of_filter. tauto.
Qed.

Lemma stale_names_Sorted l names : Sorted str_le (stale_names l names).
Proof. apply filter_Sorted, py_sort_Sorted. Qed.

Lemma clean_aws_key_pairs_cons x l w :
  clean_aws_key_pairs out (PyList (x :: l)) w =
  let o := describe_key_pairs out (events w) in
  let w' := add_event (EvDescribeKeyPairs o) w in
  match o with
  | inl e => (Raise (Lib e), w')
  | inr key_pairs => clean_loop out (x :: l) (py_sort (filter has_marker key_pairs)) [] w'
  end.
Proof.
  unfold clean_aws_key_pairs, bind, ec2_describe_key_pairs.
  destruct (describe_key_pairs out (events w)); reflexivity.
Qed.

End Runs.

(** ** Key normalisation (lines 31 and 53) *)

(** C1, counterexample. When the fetch of [alice.pub] returns
    "ssh-rsa AAAA...", LF, LF, the entry stored for alice is not
    "ssh-rsa AAAA...", LF: the text is stripped before it is split, so the
    terminator of the last retained line is lost. The stored text also
    differs from the one the specification's wording gives. *)
Lemma alice_entry_keeps_no_terminator :
  (fetch_users Sim.scenario [Sim.alice_pub] Sim.dir_path [] Sim.start).1
  <> Ret [(py "alice", py "ssh-rsa AAAA..." ++ [LF])]
  /\ without_blank_lines Sim.alice_key = py "ssh-rsa AAAA..." ++ [LF]
  /\ remove_blank_lines Sim.alice_key <> without_blank_lines Sim.alice_key.
Proof. vm_compute. repeat split; discriminate. Qed.

(** C1, amended. Normalisation first strips leading and trailing
    whitespace from the whole text, then removes every line without a
    non-whitespace character and joins the other lines, in order, each with
    its own terminator. The lines with their terminators make up the
    stripped text, and the result ends where the stripped text ends, so it
    never ends with a line terminator. For "ssh-rsa AAAA...", LF, LF the
    entry of alice is "ssh-rsa AAAA...". *)
Theorem remove_blank_lines_strips_and_filters (key : pystr) :
  remove_blank_lines key
  = concat (filter (fun l => Exists (fun c => is_space c = false) l)
                   (splitlines_keepends (strip key)))
  /\ concat (splitlines_keepends (strip key)) = strip key
  /\ last (remove_blank_lines key) = last (strip key)
  /\ match last (remove_blank_lines key) with
     | Some c => is_space c = false
     | None => remove_blank_lines key = []
     end
  /\ (fetch_users Sim.scenario [Sim.alice_pub] Sim.dir_path [] Sim.start).1
     = Ret [(py "alice", py "ssh-rsa AAAA...")].
Proof.
  split; [| split; [| split; [| split]]].
  - unfold remove_blank_lines. f_equal. apply list_filter_iff.
    intros l. apply line_is_kept_true.
  - apply splitlines_keepends_concat.
  - apply remove_blank_lines_last.
  - destruct (last (remove_blank_lines key)) as [c|] eqn:E.
    + rewrite remove_blank_lines_last in E. by apply strip_last in E.
    + by apply last_None.
  - vm_compute. reflexivity.
Qed.

(** ** Fetching the key files (lines 21-40) *)

(** C2, the code at the failing input. The listing names [alice.pub] and
    its fetch answers 404 with the body "404: Not Found": [fetch_users]
    raises nothing and stores that body as the key of alice, and the run
    goes on to register it as a key pair and reports success. *)
Lemma fetch_users_stores_body_of_failed_fetch :
  let u := Sim.dir_path ++ py "alice.pub" in
  fetch_users Sim.missing_file [Sim.alice_pub] Sim.dir_path [] Sim.start
  = (Ret [(py "alice", py "404: Not Found")],
     add_event (EvGet u [] (inr (Sim.not_found u))) Sim.start)
  /\ status_code (Sim.not_found u) = 404%Z
  /\ (lambda_handler Sim.missing_file (Sim.webhook (py "42")) OtherObject Sim.start).1
     = Ret response_success
  /\ omap (fun ev => match ev with
                       | EvImportKeyPair n k None => Some (n, k)
                       | _ => None
                       end)
          (events (lambda_handler Sim.missing_file (Sim.webhook (py "42"))
                                  OtherObject Sim.start).2)
     = [(py "alice-gh-key", py "404: Not Found")].
Proof. vm_compute. repeat split. Qed.

(** ** The orchestrator (lines 193-233) *)

Section Handler.
Context (out : Outside).

Lemma github_auth_handler_run req_id w :
  github_auth_handler req_id w
  = (Ret (str_eqb (str_of (environ w !! py "repo_id")) req_id), w).
Proof.
  unfold github_auth_handler, bind, environ_get, ret.
  by destruct (str_eqb _ req_id).
Qed.

(** The authorization step reads the environment and changes nothing. *)
Lemma auth_check_world event context w : (auth_check event context w).2 = w.
Proof.
  unfold auth_check. destruct context; [done |].
  destruct (repository_id event); [| done]. by rewrite github_auth_handler_run.
Qed.

Lemma http_response_shapes :
  http_response 200 = response_success
  /\ http_response 403 = response_denied
  /\ http_response 500 = response_failed.
Proof. vm_compute. repeat split. Qed.

(** A falsy import result ends the run with the failure response, in the
    world the import left. *)
Lemma lambda_handler_falsy_import event context w w1 users bucket w2 aws w3 :
  auth_check event context w = (Ret true, w1) ->
  fetch_and_render out w1 = (Ret (users, bucket), w2) ->
  upload_aws_key_pairs out users w2 = (Ret aws, w3) ->
  truthy aws = false ->
  lambda_handler out event context w = (Ret response_failed, w3).
Proof.
  intros Ha Hf Hu Ht. unfold lambda_handler.
  rewrite (bind_ret _ _ _ _ _ Ha). cbn [negb].
  rewrite (bind_ret _ _ _ _ _ Hf). cbn [fst snd].
  rewrite (bind_ret _ _ _ _ _ Hu). rewrite Ht. reflexivity.
Qed.

(** The steps before the import, when the configuration is present. *)
Lemma fetch_and_render_run w d t :
  environ w !! py "contents_url" = Some d ->
  environ w !! py "github_token" = Some t ->
  let dir := rstrip_chars (py "/") d ++ py "/" in
  let hdrs := [(py "Authorization", py "token " ++ t);
               (py "Accept", py "application/vnd.github.v3.raw")] in
  fetch_and_render out w
  = bind (get_repo_contents out dir hdrs)
      (fun data => bind (fetch_users out data dir hdrs)
         (fun users => bind (render_template out users)
            (fun _ => ret (users, environ w !! py "s3_bucket")))) w.
Proof.
  intros Hd Ht. cbv zeta. unfold fetch_and_render, bind, environ_get.
  rewrite Hd, Ht. reflexivity.
Qed.

End Handler.

(** ** Importing the keys (lines 85-125) *)




(** C5. When the users of the map are distinct and every registration of
    the run succeeds or fails with the duplicate error,
    [upload_aws_key_pairs] returns the sorted list of the names reported
    as duplicates and of the names imported; that list is the sorted list
    of the derived names [user ++ "-gh-key"], one per user and none
    twice. *)
Theorem upload_aws_key_pairs_returns_derived_names (out : Outside)
    (users : list (pystr * pystr)) (w : World) :
  NoDup users.*1 ->
  registrations_ok out (events w) users = true ->
  exists evs,
    upload_aws_key_pairs out users w
    = (Ret (PyList (py_sort (existing_of evs ++ imported_of evs))), add_events evs w)
    /\ py_sort (existing_of evs ++ imported_of evs) = py_sort (derived_names users)
    /\ Sorted str_le (py_sort (derived_names users))
    /\ NoDup (py_sort (derived_names users))
    /\ length (py_sort (derived_names users)) = length users
    /\ (forall n, n ∈ py_sort (derived_names users)
                  <-> exists u, u ∈ users.*1 /\ n = u ++ gh_key).
Proof.
  intros Hnd Hok.
  destruct (import_loop_ok out users [] [] w Hok) as (evs & Hrun & Hperm).
  exists evs. rewrite upload_aws_key_pairs_run, Hrun. cbn [fst snd app].
  split; [done |]. split; [by apply py_sort_perm |].
  split; [apply py_sort_Sorted |]. split; [| split].
  - apply py_sort_NoDup. unfold derived_names.
    change (NoDup (((fun u => u ++ gh_key) ∘ fst) <$> users)).
    rewrite list_fmap_compose. apply NoDup_fmap_2; [| done].
    intros u1 u2 Hu. by apply app_inv_tail in Hu.
  - rewrite py_sort_Permutation. unfold derived_names. by rewrite length_fmap.
  - intros n. rewrite py_sort_elem_of. unfold derived_names.
    rewrite list_elem_of_fmap. split.
    + intros ([u k] & -> & Hin). exists u. split; [| done].
      apply list_elem_of_fmap. by exists (u, k).
    + intros (u & Hin & ->). apply list_elem_of_fmap in Hin as ([u' k] & -> & Hin).
      by exists (u', k).
Qed.

(** C5, witness: the registry already holds [alice-gh-key]; alice is
    reported as a duplicate, bob is imported, and both names are
    returned once. *)
Lemma upload_aws_key_pairs_returns_derived_names_witness :
  (upload_aws_key_pairs Sim.half_registered Sim.fetched_users Sim.start).1
  = Ret (PyList [py "alice-gh-key"; py "bob-gh-key"]).
Proof.
  destruct (upload_aws_key_pairs_returns_derived_names Sim.half_registered
              Sim.fetched_users Sim.start)
    as (evs & Hrun & Heq & _).
  - apply (bool_decide_unpack _). vm_compute. exact I.
  - vm_compute. reflexivity.
  - rewrite Hrun, Heq. vm_compute. reflexivity.
Defined.

(** ** Pruning the registry (lines 129-158) *)

(** C4. Whatever the provider answers and whatever the import result is,
    Clean requests the deletion only of names that carry the marker
    "-gh-key" and are not in the import result, and it returns only such
    names; a name without the marker is never deleted nor returned. When
    the import result is a non-empty list, the registry lists [names] and
    the deletions succeed, Clean deletes exactly the marked names of the
    registry that the import result does not hold, each in sorted order,
    and returns their sorted list, which may be empty. *)
Theorem clean_deletes_stale_marked_names (out : Outside) (github_keys : py_result)
    (w : World) :
  (exists evs,
     (clean_aws_key_pairs out github_keys w).2 = add_events evs w
     /\ Forall (fun n => has_marker n /\ n ∉ names_of github_keys) (deleted_of evs)
     /\ match (clean_aws_key_pairs out github_keys w).1 with
        | Ret deleted =>
            Forall (fun n => has_marker n /\ n ∉ names_of github_keys) deleted
        | Raise _ => True
        end)
  /\ (forall names,
        truthy github_keys = true ->
        describe_key_pairs out (events w) = inr names ->
        deletes_ok out (events w ++ [EvDescribeKeyPairs (inr names)])
                   (stale_names (names_of github_keys) names) = true ->
        clean_aws_key_pairs out github_keys w
        = (Ret (stale_names (names_of github_keys) names),
           add_events (EvDescribeKeyPairs (inr names)
                       :: ((fun n => EvDeleteKeyPair n None)
                             <$> stale_names (names_of github_keys) names)) w)
        /\ Sorted str_le (stale_names (names_of github_keys) names)
        /\ (forall n, n ∈ stale_names (names_of github_keys) names
                      <-> n ∈ names /\ has_marker n /\ n ∉ names_of github_keys)).
Proof.
  split.
  - destruct github_keys as [|[|x l]].
    + exists []. rewrite add_events_nil. cbn. repeat split; constructor.
    + exists []. rewrite add_events_nil. cbn. repeat split; constructor.
    + rewrite clean_aws_key_pairs_cons. cbn [names_of].
      destruct (describe_key_pairs out (events w)) as [e|names] eqn:Ed; cbv beta iota zeta.
      * exists [EvDescribeKeyPairs (inl e)]. cbn. repeat split; constructor.
      * destruct (clean_loop_safe out (x :: l) (py_sort (filter has_marker names)) []
                    (add_event (EvDescribeKeyPairs (inr names)) w))
          as (evs & Hw & Hdel & Hret).
        assert (Hstale : forall n, n ∈ filter (fun key => key ∉ x :: l)
                                       (py_sort (filter has_marker names))
                                   -> has_marker n /\ n ∉ x :: l).
        { intros n Hn. apply list_elem_of_filter in Hn as [Hn1 Hn2].
          apply py_sort_elem_of, list_elem_of_filter in Hn2 as [Hn2 _]. done. }
        exists (EvDescribeKeyPairs (inr names) :: evs).
        rewrite Hw, add_events_cons. split; [done |]. split.
        -- apply Forall_forall. intros n Hn. unfold deleted_of in Hn. cbn in Hn.
           destruct (Hdel n Hn) as [Hin Hnl]. split; [| done].
           by apply py_sort_elem_of, list_elem_of_filter in Hin as [Hin _].
        -- destruct (clean_loop out (x :: l) _ [] _).1 as [d|e] eqn:Er; [| done].
           rewrite (Hret d eq_refl). cbn [app].
           apply Forall_forall. intros n Hn. by apply Hstale.
  - intros names Ht Hd Hok. split; [| split].
    + destruct github_keys as [|[|x l]]; try done. cbn [names_of] in *.
      rewrite clean_aws_key_pairs_cons, Hd. cbv beta iota zeta.
      unfold stale_names in *. rewrite clean_loop_ok by done.
      by rewrite add_events_cons.
    + apply stale_names_Sorted.
    + intros n. apply elem_of_stale_names.
Qed.

(** C4, witness: the import result is [alice-gh-key; bob-gh-key] and the
    registry holds [alice-gh-key], [carol-gh-key] and the unmarked [ops];
    Clean deletes and returns [carol-gh-key] only. *)
Lemma clean_deletes_stale_marked_names_witness :
  (clean_aws_key_pairs Sim.half_registered
     (PyList [py "alice-gh-key"; py "bob-gh-key"]) Sim.start).1
  = Ret [py "carol-gh-key"]
  /\ deleted_of (events (clean_aws_key_pairs Sim.half_registered
                   (PyList [py "alice-gh-key"; py "bob-gh-key"]) Sim.start).2)
     = [py "carol-gh-key"].
Proof.
  destruct (clean_deletes_stale_marked_names Sim.half_registered
              (PyList [py "alice-gh-key"; py "bob-gh-key"]) Sim.start) as [_ H].
  destruct (H [py "alice-gh-key"; py "carol-gh-key"; py "ops"]) as (Hrun & _).
  - reflexivity.
  - vm_compute. reflexivity.
  - vm_compute. reflexivity.
  - rewrite Hrun. vm_compute. split; reflexivity.
Defined.

(** ** Rendering, and the run on an empty listing *)

Lemma get_repo_contents_world (out : Outside) dir hdrs w :
  (get_repo_contents out dir hdrs w).2
  = add_event (EvGet dir hdrs (requests_get out (events w) dir hdrs)) w.
Proof.
  unfold get_repo_contents, bind, http_get, decode_utf8.
  destruct (requests_get out (events w) dir hdrs) as [e|resp]; [done |]. cbn.
  destruct (_ && _)%bool; [done |].
  destruct (content_utf8 resp) as [text|]; [| done]. cbn.
  by destruct (json_loads out text).
Qed.

(** C6. [render_template] raises the error "No users fetched" exactly
    when the map is empty. When the authorization step lets the run go on,
    the configuration is present and the listing is empty, the handler
    raises that error in the world the listing request left: the only call
    made is that request, and no call to the cloud provider (key-pair
    import, listing or deletion, upload) has been made. *)
Theorem render_template_rejects_empty_map (out : Outside) :
  (forall users w, (render_template out users w).1 = Raise no_users_fetched <-> users = [])
  /\ (forall event context w d t w1,
        (auth_check event context w).1 = Ret true ->
        environ w !! py "contents_url" = Some d ->
        environ w !! py "github_token" = Some t ->
        get_repo_contents out (rstrip_chars (py "/") d ++ py "/")
          [(py "Authorization", py "token " ++ t);
           (py "Accept", py "application/vnd.github.v3.raw")] w = (Ret [], w1) ->
        lambda_handler out event context w = (Raise no_users_fetched, w1)
        /\ exists evs, w1 = add_events evs w
                       /\ Forall (fun ev => is_cloud_call ev = false) evs).
Proof.
  split.
  - intros [|kv users] w; [done |]. unfold render_template.
    destruct (render_init_j2 out (kv :: users)); cbn; split; done.
  - intros event context w d t w1 Ha Hd Ht Hget.
    assert (Ha' : auth_check event context w = (Ret true, w)).
    { pose proof (auth_check_world event context w) as Hw.
      destruct (auth_check event context w) as [r w']. cbn in *. by subst. }
    split.
    + unfold lambda_handler. rewrite (bind_ret _ _ _ _ _ Ha'). cbn [negb].
      apply bind_raise. rewrite (fetch_and_render_run out w d t Hd Ht). cbv zeta.
      rewrite (bind_ret _ _ _ _ _ Hget). reflexivity.
    + pose proof (get_repo_contents_world out (rstrip_chars (py "/") d ++ py "/")
        [(py "Authorization", py "token " ++ t);
         (py "Accept", py "application/vnd.github.v3.raw")] w) as Hw.
      rewrite Hget in Hw. cbn [snd] in Hw. subst w1.
      eexists. split; [reflexivity |]. by repeat constructor.
Qed.

(** C6, witness: the simulated server lists no file. *)
Lemma render_template_rejects_empty_map_witness :
  (lambda_handler Sim.empty_listing (Sim.webhook (py "42")) OtherObject Sim.start).1
  = Raise no_users_fetched
  /\ filter (fun ev => is_cloud_call ev = true)
       (events (lambda_handler Sim.empty_listing (Sim.webhook (py "42"))
                               OtherObject Sim.start).2) = [].
Proof.
  destruct (render_template_rejects_empty_map Sim.empty_listing) as [_ H].
  destruct (H (Sim.webhook (py "42")) OtherObject Sim.start
              (py "https://api.github.com/repos/org/keys/contents/pub") (py "t0ken")
              (get_repo_contents Sim.empty_listing Sim.dir_path
                 [(py "Authorization", py "token t0ken");
                  (py "Accept", py "application/vnd.github.v3.raw")] Sim.start).2)
    as [Hrun _].
  - vm_compute. reflexivity.
  - vm_compute. reflexivity.
  - vm_compute. reflexivity.
  - vm_compute. reflexivity.
  - rewrite Hrun. vm_compute. split; reflexivity.
Defined.

(** C7. Whenever the import step returns [False] or the empty list, the
    handler returns the response with status 500 and body
    [{"Status": "FAILED"}] in the very world the import left: neither the
    registry listing, nor a deletion, nor the upload takes place. *)
Theorem lambda_handler_fails_on_empty_import (out : Outside) (event : LambdaEvent)
    (context : PyContext) (w w1 w2 w3 : World) (users : list (pystr * pystr))
    (bucket : option pystr) (aws_key_pairs : py_result) :
  auth_check event context w = (Ret true, w1) ->
  fetch_and_render out w1 = (Ret (users, bucket), w2) ->
  upload_aws_key_pairs out users w2 = (Ret aws_key_pairs, w3) ->
  truthy aws_key_pairs = false ->
  lambda_handler out event context w = (Ret (http_response 500), w3)
  /\ http_response 500 = response_failed
  /\ (aws_key_pairs = PyFalse \/ aws_key_pairs = PyList []).
Proof.
  intros Ha Hf Hu Ht. split; [| split].
  - by apply (lambda_handler_falsy_import out event context w w1 users bucket w2
                aws_key_pairs w3).
  - apply http_response_shapes.
  - destruct aws_key_pairs as [|[|x l]]; [by left | by right | done].
Qed.

(** C7, witness: the provider rejects every key with a [ClientError] that
    is no duplicate, so the import returns the empty list. *)
Lemma lambda_handler_fails_on_empty_import_witness :
  lambda_handler Sim.rejecting_all (Sim.webhook (py "42")) OtherObject Sim.start
  = (Ret response_failed,
     (upload_aws_key_pairs Sim.rejecting_all Sim.fetched_users
        (fetch_and_render Sim.rejecting_all Sim.start).2).2)
  /\ deleted_of (events (lambda_handler Sim.rejecting_all (Sim.webhook (py "42"))
                           OtherObject Sim.start).2) = [].
Proof.
  destruct (lambda_handler_fails_on_empty_import Sim.rejecting_all
              (Sim.webhook (py "42")) OtherObject Sim.start Sim.start
              (fetch_and_render Sim.rejecting_all Sim.start).2
              (upload_aws_key_pairs Sim.rejecting_all Sim.fetched_users
                 (fetch_and_render Sim.rejecting_all Sim.start).2).2
              Sim.fetched_users (Some (py "bucket")) (PyList []))
    as (Hrun & Hresp & _).
  - vm_compute. reflexivity.
  - vm_compute. reflexivity.
  - vm_compute. reflexivity.
  - reflexivity.
  - rewrite Hrun, Hresp. split; [reflexivity |]. vm_compute. reflexivity.
Defined.

(** ** Publishing the artifact (lines 61-81) *)

Lemma upload_to_s3_run (out : Outside) bucket_name w :
  upload_to_s3 out bucket_name w
  = match init_conf w with
    | None => (Ret false, w)
    | Some _ =>
        (Ret (match upload_file out (events w) (py "/tmp/init.conf") bucket_name
                      (py "init.conf") with
              | None => true
              | Some _ => false
              end),
         add_event (EvUploadFile (py "/tmp/init.conf") bucket_name (py "init.conf")
                      (upload_file out (events w) (py "/tmp/init.conf") bucket_name
                         (py "init.conf"))) w)
    end.
Proof.
  unfold upload_to_s3, bind, isfile_init_conf, try, s3_upload_file. cbv zeta.
  change (default [] (last (split 47 (py "/tmp/init.conf")))) with (py "init.conf").
  destruct (init_conf w); [| done]. cbv beta iota delta [negb].
  by destruct (upload_file out (events w) _ bucket_name _).
Qed.

(** C8. Without a file at [/tmp/init.conf], [upload_to_s3] returns
    [False] and makes no call. With the file it makes one upload call,
    under the base name [init.conf], and returns [True] when the call
    completes and [False] when it raises: it never raises itself, and it
    returns [True] exactly when the file exists and the upload completes
    without exception. *)
Theorem upload_to_s3_absorbs_failures (out : Outside) (bucket_name : option pystr)
    (w : World) :
  upload_to_s3 out bucket_name w
  = match init_conf w with
    | None => (Ret false, w)
    | Some _ =>
        (Ret (match upload_file out (events w) (py "/tmp/init.conf") bucket_name
                      (py "init.conf") with
              | None => true
              | Some _ => false
              end),
         add_event (EvUploadFile (py "/tmp/init.conf") bucket_name (py "init.conf")
                      (upload_file out (events w) (py "/tmp/init.conf") bucket_name
                         (py "init.conf"))) w)
    end
  /\ (exists b, (upload_to_s3 out bucket_name w).1 = Ret b)
  /\ ((upload_to_s3 out bucket_name w).1 = Ret true
      <-> init_conf w <> None
          /\ upload_file out (events w) (py "/tmp/init.conf") bucket_name (py "init.conf")
             = None).
Proof.
  split; [apply upload_to_s3_run |]. rewrite upload_to_s3_run. split.
  - destruct (init_conf w); [destruct (upload_file _ _ _ _ _) |]; cbn [fst]; eauto.
  - destruct (init_conf w); [destruct (upload_file _ _ _ _ _) |]; cbn [fst];
      intuition congruence.
Qed.

(** ** Authorizing the request (lines 161-167) *)

(** C9. [github_auth_handler] returns [True] exactly when the request's
    identifier equals the string of the expected identifier of the
    environment, and it leaves the world as it was; with the expected
    identifier set to [v] that is equality with [v]. With "42" expected,
    the request "42" is accepted and the request "43" is refused. *)
Theorem github_auth_handler_exact_match (req_id : pystr) (v : pystr) (w : World) :
  github_auth_handler req_id w
  = (Ret (bool_decide (req_id = str_of (environ w !! py "repo_id"))), w)
  /\ github_auth_handler req_id (set_env (py "repo_id") v w)
     = (Ret (bool_decide (req_id = v)), set_env (py "repo_id") v w)
  /\ github_auth_handler (py "42") (set_env (py "repo_id") (py "42") w)
     = (Ret true, set_env (py "repo_id") (py "42") w)
  /\ github_auth_handler (py "43") (set_env (py "repo_id") (py "42") w)
     = (Ret false, set_env (py "repo_id") (py "42") w).
Proof.
  assert (Hrun : forall r w0, github_auth_handler r w0
    = (Ret (bool_decide (r = str_of (environ w0 !! py "repo_id"))), w0)).
  { intros r w0. rewrite github_auth_handler_run. unfold str_eqb.
    do 2 f_equal. apply bool_decide_ext. split; done. }
  assert (Hset : forall x w0, str_of (environ (set_env (py "repo_id") x w0) !! py "repo_id") = x).
  { intros x w0. unfold set_env. cbn [environ]. by rewrite lookup_insert_eq. }
  split; [apply Hrun |]. rewrite !Hrun, !Hset. repeat split.
Qed.

(** C10. When [repo_id] is not set in the environment, the expected
    identifier is the string "None": the handler answers every request by
    comparing its identifier with "None", so exactly the request whose
    identifier is "None" is authorized, and the world is left as it was. *)
Theorem github_auth_handler_unset_repo_id (req_id : pystr) (w : World) :
  environ w !! py "repo_id" = None ->
  github_auth_handler req_id w = (Ret (bool_decide (req_id = py "None")), w)
  /\ github_auth_handler (py "None") w = (Ret true, w)
  /\ str_of (environ w !! py "repo_id") = py "None".
Proof.
  intros Hunset. rewrite !github_auth_handler_run, Hunset. cbn [str_of].
  split; [| split; [| done]].
  - unfold str_eqb. do 2 f_equal. apply bool_decide_ext. split; done.
  - unfold str_eqb. by rewrite bool_decide_true.
Qed.

(** C10, witness: an empty environment; the request "None" is authorized
    and the request "42" is not. *)
Lemma github_auth_handler_unset_repo_id_witness :
  github_auth_handler (py "None") {| environ := ∅; init_conf := None; events := [] |}
  = (Ret true, {| environ := ∅; init_conf := None; events := [] |})
  /\ github_auth_handler (py "42") {| environ := ∅; init_conf := None; events := [] |}
     = (Ret false, {| environ := ∅; init_conf := None; events := [] |}).
Proof.
  destruct (github_auth_handler_unset_repo_id (py "42")
              {| environ := ∅; init_conf := None; events := [] |})
    as (Hcmp & Hnone & _).
  - reflexivity.
  - split; [exact Hnone |]. rewrite Hcmp. vm_compute. reflexivity.
Defined.

(** ** The end-to-end scenario of the specification *)

(** One key file, a registry with a stale [bob-gh-key]: the key of alice
    is imported, [bob-gh-key] is deleted, the rendered file is uploaded
    and the response is the success response. *)
Example end_to_end :
  let run := lambda_handler Sim.scenario (Sim.webhook (py "42")) OtherObject Sim.start in
  run.1 = Ret response_success
  /\ imported_of (events run.2) = [py "alice-gh-key"]
  /\ deleted_of (events run.2) = [py "bob-gh-key"]
  /\ (lambda_handler Sim.scenario (Sim.webhook (py "43")) OtherObject Sim.start)
     = (Ret response_denied, Sim.start).
Proof. vm_compute. repeat split. Qed.

(** * Further properties of the script *)

(** ** [split], [find] and [rstrip] *)

Section MoreStrings.

Lemma split_from_not_nil sep s : forall cur, split_from sep cur s <> [].
Proof.
  induction s as [|c s IH]; intros cur; simpl; [done |].
  destruct (c =? sep); [done | apply IH].
Qed.

Lemma join_cons_cons sep x y l : join sep (x :: y :: l) = x ++ sep ++ join sep (y :: l).
Proof. reflexivity. Qed.

Lemma split_from_join sep s : forall cur, join [sep] (split_from sep cur s) = cur ++ s.
Proof.
  induction s as [|c s IH]; intros cur; simpl; [by rewrite app_nil_r |].
  destruct (N.eqb_spec c sep) as [-> | Hne].
  - pose proof (split_from_not_nil sep s []) as Hnil.
    specialize (IH []). destruct (split_from sep [] s) as [|y l]; [done |].
    rewrite join_cons_cons, IH. done.
  - rewrite IH. by rewrite <- app_assoc.
Qed.

Lemma split_from_parts sep s : forall cur,
  sep ∉ cur -> Forall (fun part => sep ∉ part) (split_from sep cur s).
Proof.
  induction s as [|c s IH]; intros cur Hcur; simpl; [by repeat constructor |].
  destruct (N.eqb_spec c sep) as [-> | Hne].
  - constructor; [done |]. apply IH. by intros ?%elem_of_nil.
  - apply IH. rewrite elem_of_app, list_elem_of_singleton. intros [? | ?]; [done |].
    by subst.
Qed.

Lemma split_from_head sep s : forall cur,
  exists u rest,
    head (split_from sep cur s) = Some (cur ++ u)
    /\ s = u ++ rest /\ (sep ∉ u) /\ (rest = [] \/ head rest = Some sep).
Proof.
  induction s as [|c s IH]; intros cur; simpl.
  - exists [], []. rewrite app_nil_r. repeat split; try done.
    + by intros ?%elem_of_nil.
    + by left.
  - destruct (N.eqb_spec c sep) as [-> | Hne].
    + exists [], (sep :: s). rewrite app_nil_r. repeat split; try done.
      * by intros ?%elem_of_nil.
      * by right.
    + destruct (IH (cur ++ [c])) as (u & rest & Hh & -> & Hu & Hrest).
      exists (c :: u), rest. rewrite Hh, <- app_assoc. repeat split; try done.
      rewrite elem_of_cons. intros [? | ?]; [by subst | done].
Qed.

Lemma is_prefix_spec sub s : is_prefix sub s = true <-> exists post, s = sub ++ post.
Proof.
  revert s. induction sub as [|a sub IH]; intros s; simpl.
  - split; [intros _; by exists s | done].
  - destruct s as [|b s]; [split; [done | by intros [post ?]] |].
    rewrite andb_true_iff, N.eqb_eq, IH. split.
    + intros [-> [post ->]]. by exists post.
    + intros [post [= -> ->]]. split; [done | by exists post].
Qed.

Lemma find_from_spec sub s : forall i,
  (0 <= i)%Z ->
  (find_from sub s i <> (-1)%Z <-> exists pre post, s = pre ++ sub ++ post)
  /\ ((i <= find_from sub s i)%Z \/ find_from sub s i = (-1)%Z).
Proof.
  induction s as [|c s IH]; intros i Hi.
  - cbn [find_from]. destruct (is_prefix sub []) eqn:E.
    + apply is_prefix_spec in E as [post E]. split; [| lia].
      split; [intros _; by exists [], post | lia].
    + split; [| lia]. split; [done |]. intros (pre & post & Hs).
      assert (is_prefix sub [] = true) as Hp; [| congruence].
      apply is_prefix_spec. symmetry in Hs. apply app_eq_nil in Hs as [-> Hs].
      apply app_eq_nil in Hs as [-> ->]. by exists [].
  - cbn [find_from]. destruct (is_prefix sub (c :: s)) eqn:E.
    + apply is_prefix_spec in E as [post E]. split; [| lia].
      split; [intros _; by exists [], post | lia].
    + destruct (IH (i + 1)%Z) as [IH1 IH2]; [lia |]. split; [| lia].
      rewrite IH1. split.
      * intros (pre & post & ->). by exists (c :: pre), post.
      * intros ([|c' pre] & post & Hs).
        -- assert (is_prefix sub (c :: s) = true) as Hp; [| congruence].
           apply is_prefix_spec. by exists post.
        -- injection Hs as -> ->. by exists pre, post.
Qed.

(** A name carries the marker when "-gh-key" occurs anywhere in it. *)
Lemma has_marker_spec n : has_marker n <-> exists pre post, n = pre ++ gh_key ++ post.
Proof. unfold has_marker, find. by apply find_from_spec. Qed.

Lemma rstrip_by_split p s :
  exists suf, s = rstrip_by p s ++ suf /\ Forall (fun c => p c = true) suf.
Proof.
  unfold rstrip_by. destruct (drop_while_split p (reverse s)) as (pre & Hs & Hpre).
  exists (reverse pre). split; [| by apply Forall_reverse].
  rewrite <- reverse_app, <- Hs. by rewrite reverse_involutive.
Qed.

Lemma rstrip_by_last p s c : last (rstrip_by p s) = Some c -> p c = false.
Proof.
  unfold rstrip_by. intros H.
  destruct (drop_while p (reverse s)) as [|d r] eqn:E; [by rewrite reverse_nil in H |].
  rewrite reverse_cons, last_snoc in H. injection H as <-.
  by apply drop_while_head in E.
Qed.

Lemma rstrip_by_snoc p s c : p c = true -> rstrip_by p (s ++ [c]) = rstrip_by p s.
Proof.
  intros Hc. unfold rstrip_by. rewrite reverse_app. cbn. by rewrite Hc.
Qed.

Lemma strip_split s :
  exists pre suf, s = pre ++ strip s ++ suf
                  /\ Forall (fun c => is_space c = true) pre
                  /\ Forall (fun c => is_space c = true) suf.
Proof.
  unfold strip, lstrip_by.
  destruct (drop_while_split is_space s) as (pre & Hs & Hpre).
  destruct (rstrip_by_split is_space (drop_while is_space s)) as (suf & Hs' & Hsuf).
  exists pre, suf. split; [| done]. by rewrite <- Hs', <- Hs.
Qed.

Lemma filter_nonspace_all_space s :
  Forall (fun c => is_space c = true) s -> filter (fun c => is_space c = false) s = [].
Proof.
  induction 1 as [|c s Hc _ IH]; [done |].
  rewrite filter_cons, decide_False by congruence. done.
Qed.

Lemma concat_filter_sublist (P : pystr -> Prop) `{!forall l, Decision (P l)} ls :
  concat (filter P ls) `sublist_of` concat ls.
Proof.
  induction ls as [|l ls IH]; [done |].
  rewrite filter_cons. destruct (decide (P l)); simpl.
  - by apply sublist_app.
  - by apply sublist_inserts_l.
Qed.

Lemma concat_kept_nonspace ls :
  filter (fun c => is_space c = false)
         (concat (filter (fun s => line_is_kept s = true) ls))
  = filter (fun c => is_space c = false) (concat ls).
Proof.
  induction ls as [|l ls IH]; [done |].
  rewrite filter_cons. destruct (decide (line_is_kept l = true)) as [Hk | Hk]; simpl.
  - by rewrite !filter_app, IH.
  - rewrite filter_app, IH. apply not_true_is_false, line_is_kept_false in Hk.
    by rewrite (filter_nonspace_all_space l Hk).
Qed.

End MoreStrings.

(** X1. Normalisation only deletes whitespace: its result is a subsequence
    of the key text that holds every non-whitespace character of it, in
    order, and it is empty exactly when the text is all whitespace. *)
Theorem remove_blank_lines_deletes_whitespace_only (key : pystr) :
  remove_blank_lines key `sublist_of` key
  /\ filter (fun c => is_space c = false) (remove_blank_lines key)
     = filter (fun c => is_space c = false) key
  /\ (remove_blank_lines key = [] <-> Forall (fun c => is_space c = true) key).
Proof.
  destruct (strip_split key) as (pre & suf & Hkey & Hpre & Hsuf).
  assert (Hns : filter (fun c => is_space c = false) (remove_blank_lines key)
                = filter (fun c => is_space c = false) key).
  { unfold remove_blank_lines.
    rewrite concat_kept_nonspace, splitlines_keepends_concat.
    rewrite Hkey at 2. rewrite !filter_app.
    rewrite (filter_nonspace_all_space pre), (filter_nonspace_all_space suf) by done.
    by rewrite app_nil_r. }
  split; [| split; [exact Hns |]].
  - transitivity (strip key).
    + unfold remove_blank_lines.
      rewrite <- (splitlines_keepends_concat (strip key)) at 2.
      apply concat_filter_sublist.
    + rewrite Hkey at 2. apply sublist_inserts_l, sublist_inserts_r. done.
  - split.
    + intros Hnil. rewrite Hnil in Hns. symmetry in Hns.
      apply Forall_forall. intros c Hc.
      destruct (is_space c) eqn:Ec; [done |].
      assert (c ∈ filter (fun c => is_space c = false) key) as Hin
        by (by apply list_elem_of_filter).
      rewrite Hns in Hin. by apply elem_of_nil in Hin.
    + intros Hall. apply (strip_by_nil is_space) in Hall.
      unfold remove_blank_lines. fold (strip key) in Hall. by rewrite Hall.
Qed.

(** ** Normalising twice *)

Section Idempotence.

Lemma linebreak_is_space c : is_linebreak c = true -> is_space c = true.
Proof.
  unfold is_linebreak, is_space.
  rewrite !orb_true_iff, !andb_true_iff, !N.leb_le, !N.eqb_eq. lia.
Qed.

Lemma not_linebreak_not_CR c : is_linebreak c = false -> (c =? CR) = false.
Proof.
  intros H. destruct (N.eqb_spec c CR) as [-> |]; [| done]. by vm_compute in H.
Qed.

Lemma not_linebreak_not_LF c : is_linebreak c = false -> c <> LF.
Proof. intros H ->. by vm_compute in H. Qed.

(** Reading one terminated line off the front of a text. *)
Lemma splitlines_from_terminated body : forall term rest cur,
  Forall (fun c => is_linebreak c = false) body ->
  (term = [CR; LF] \/ exists c, term = [c] /\ is_linebreak c = true) ->
  (term = [CR] -> head rest <> Some LF) ->
  splitlines_from cur (body ++ term ++ rest)
  = (cur ++ body ++ term) :: splitlines_from [] rest.
Proof.
  induction body as [|b body IH]; intros term rest cur Hbody Hterm Hrest.
  - cbn [app]. destruct Hterm as [-> | (c & -> & Hc)].
    + cbn [app]. rewrite splitlines_from_cons. cbn. done.
    + cbn [app]. rewrite splitlines_from_cons.
      destruct (N.eqb_spec c CR) as [-> | Hne].
      * destruct rest as [|d rest]; [done |].
        destruct (N.eqb_spec d LF) as [-> | Hd]; [| done].
        by destruct (Hrest eq_refl).
      * by rewrite Hc.
  - inversion_clear Hbody as [|? ? Hb Hbody'].
    cbn [app]. rewrite splitlines_from_cons, (not_linebreak_not_CR b Hb), Hb.
    rewrite (IH term rest (cur ++ [b])) by done. by rewrite <- !app_assoc.
Qed.

(** Reading a last line without terminator. *)
Lemma splitlines_from_open body : forall cur,
  Forall (fun c => is_linebreak c = false) body ->
  cur ++ body <> [] ->
  splitlines_from cur body = [cur ++ body].
Proof.
  induction body as [|b body IH]; intros cur Hbody Hne.
  - rewrite app_nil_r in *. cbn. by destruct cur.
  - inversion_clear Hbody as [|? ? Hb Hbody'].
    rewrite splitlines_from_cons, (not_linebreak_not_CR b Hb), Hb.
    rewrite IH; [by rewrite <- app_assoc | done |].
    by destruct cur.
Qed.

Lemma lines_shape_cons l ls : terminated_line l -> lines_shape ls -> lines_shape (l :: ls).
Proof. intros Hl Hls. destruct ls; cbn; [by left | done]. Qed.

Lemma lines_shape_inv l ls :
  lines_shape (l :: ls) ->
  (terminated_line l \/ (open_line l /\ ls = [])) /\ lines_shape ls.
Proof.
  destruct ls as [|l' ls]; cbn [lines_shape].
  - intros [H | H]; split; auto.
  - intros [H1 H2]. split; auto.
Qed.

(** The lines of every text have that shape. *)
Lemma splitlines_from_shape n : forall s cur,
  (length s <= n)%nat ->
  Forall (fun c => is_linebreak c = false) cur ->
  lines_shape (splitlines_from cur s).
Proof.
  induction n as [|n IH]; intros [|c s] cur Hn Hcur;
    try (cbn; destruct cur; [done | right; split; done]); [simpl in Hn; lia |].
  rewrite splitlines_from_cons.
  destruct (N.eqb_spec c CR) as [-> | Hne].
  - destruct s as [|d s]; [| destruct (N.eqb_spec d LF) as [-> | Hd]];
      (apply lines_shape_cons; [| apply IH; [simpl in *; lia | constructor]]).
    + exists cur, [CR]. repeat split; [done |]. right. by exists CR.
    + exists cur, [CR; LF]. repeat split; [done |]. by left.
    + exists cur, [CR]. repeat split; [done |]. right. by exists CR.
  - destruct (is_linebreak c) eqn:Hc.
    + apply lines_shape_cons; [| apply IH; [simpl in *; lia | constructor]].
      exists cur, [c]. repeat split; [done |]. right. by exists c.
    + apply IH; [simpl in *; lia |]. apply Forall_app. by repeat constructor.
Qed.

Lemma lines_shape_filter (P : pystr -> Prop) `{!forall l, Decision (P l)} ls :
  lines_shape ls -> lines_shape (filter P ls).
Proof.
  induction ls as [|l ls IH]; [done |].
  intros [Hl Hls]%lines_shape_inv. rewrite filter_cons.
  destruct (decide (P l)); [| by apply IH].
  destruct Hl as [Hl | [Hl ->]].
  - apply lines_shape_cons; auto.
  - cbn. by right.
Qed.

(** A retained line starts with a character that is no line boundary. *)
Lemma kept_line_head l :
  terminated_line l \/ open_line l -> line_is_kept l = true ->
  exists b l', l = b :: l' /\ is_linebreak b = false.
Proof.
  intros Hl Hk. destruct Hl as [(body & term & -> & Hbody & Hterm) | [Hne Hall]].
  - destruct body as [|b body].
    + exfalso. apply not_false_iff_true in Hk. apply Hk, line_is_kept_false.
      cbn. destruct Hterm as [-> | (c & -> & Hc)].
      * by repeat constructor.
      * repeat constructor. by apply linebreak_is_space.
    + inversion_clear Hbody. by exists b, (body ++ term).
  - destruct l as [|b l]; [done |]. inversion_clear Hall. by exists b, l.
Qed.

(** Lines of that shape that are all retained are the lines of their
    concatenation. *)
Lemma splitlines_concat_kept ls :
  lines_shape ls -> Forall (fun l => line_is_kept l = true) ls ->
  splitlines_keepends (concat ls) = ls.
Proof.
  unfold splitlines_keepends.
  induction ls as [|l ls IH]; [done |].
  intros [Hl Hls]%lines_shape_inv Hk. inversion_clear Hk as [|? ? Hkl Hkls].
  cbn [concat]. destruct Hl as [(body & term & -> & Hbody & Hterm) | [[Hne Hall] ->]].
  - rewrite <- app_assoc, splitlines_from_terminated; try done.
    + by rewrite IH.
    + intros _. destruct ls as [|l2 ls]; [done |].
      inversion_clear Hkls as [|? ? Hk2 _].
      apply lines_shape_inv in Hls as [Hl2 _].
      destruct (kept_line_head l2) as (b & l' & -> & Hb); [tauto | done |].
      cbn. intros [= ->]. by vm_compute in Hb.
  - cbn. rewrite app_nil_r. by apply splitlines_from_open.
Qed.

Lemma drop_while_id p s : (forall c, head s = Some c -> p c = false) -> drop_while p s = s.
Proof. destruct s as [|c s]; [done |]. intros H. cbn. by rewrite (H c eq_refl). Qed.

Lemma strip_head s c : head (strip s) = Some c -> is_space c = false.
Proof.
  unfold strip, lstrip_by. intros H.
  destruct (rstrip_by_split is_space (drop_while is_space s)) as (suf & Hs & _).
  destruct (rstrip_by is_space (drop_while is_space s)) as [|d r]; [done |].
  injection H as ->. destruct (drop_while is_space s) as [|d' r'] eqn:E; [done |].
  injection Hs as -> _. by apply drop_while_head in E.
Qed.

(** A text without whitespace at either end is left alone by [strip]. *)
Lemma strip_id s :
  (forall c, head s = Some c -> is_space c = false) ->
  (forall c, last s = Some c -> is_space c = false) ->
  strip s = s.
Proof.
  intros Hh Hl. unfold strip, lstrip_by, rstrip_by.
  rewrite (drop_while_id is_space s Hh), drop_while_id; [apply reverse_involutive |].
  intros c Hc. apply Hl. rewrite <- Hc. clear.
  destruct s as [|x s] using rev_ind; [done |].
  by rewrite reverse_app, last_snoc.
Qed.

Lemma remove_blank_lines_head key :
  head (remove_blank_lines key) = head (strip key).
Proof.
  unfold remove_blank_lines.
  pose proof (splitlines_keepends_concat (strip key)) as Hc.
  pose proof (splitlines_keepends_nonempty (strip key)) as Hne.
  destruct (splitlines_keepends (strip key)) as [|l0 ls0].
  - simpl in Hc. by rewrite <- Hc.
  - inversion_clear Hne as [|? ? Hl _]. destruct l0 as [|c l0]; [done |].
    assert (Hsp : is_space c = false).
    { apply (strip_head key). by rewrite <- Hc. }
    rewrite filter_cons_True; [by rewrite <- Hc |].
    apply line_is_kept_true. by left.
Qed.

End Idempotence.

(** X2. Normalising twice changes nothing more: the result of
    [remove_blank_lines] has no whitespace at either end, each of its lines
    holds a non-whitespace character, and normalising it again returns
    it. *)
Theorem remove_blank_lines_idempotent (key : pystr) :
  remove_blank_lines (remove_blank_lines key) = remove_blank_lines key
  /\ strip (remove_blank_lines key) = remove_blank_lines key
  /\ Forall (fun l => Exists (fun c => is_space c = false) l)
            (splitlines_keepends (remove_blank_lines key)).
Proof.
  assert (Hstrip : strip (remove_blank_lines key) = remove_blank_lines key).
  { apply strip_id; intros c Hc.
    - rewrite remove_blank_lines_head in Hc. by apply strip_head in Hc.
    - rewrite remove_blank_lines_last in Hc. by apply strip_last in Hc. }
  assert (Hlines : splitlines_keepends (remove_blank_lines key)
                   = filter (fun s => line_is_kept s = true)
                            (splitlines_keepends (strip key))).
  { unfold remove_blank_lines. apply splitlines_concat_kept.
    - apply lines_shape_filter, (splitlines_from_shape (length (strip key))); [lia | done].
    - apply Forall_forall. intros l Hl. by apply list_elem_of_filter in Hl as [Hl _]. }
  assert (Hkept : Forall (fun l => line_is_kept l = true)
                         (splitlines_keepends (remove_blank_lines key))).
  { rewrite Hlines. apply Forall_forall. intros l Hl.
    by apply list_elem_of_filter in Hl as [Hl _]. }
  split; [| split; [done |]].
  - unfold remove_blank_lines at 1. rewrite Hstrip, Hlines.
    by rewrite list_filter_filter_l.
  - eapply Forall_impl; [exact Hkept |]. intros l Hl. by apply line_is_kept_true.
Qed.

(** ** User names and registry names *)

(** X3. The user name of a key file is the part of its name before the
    first dot: a prefix of the name that holds no dot and is followed by a
    dot or by nothing. *)
Theorem username_of_is_dotless_prefix (each : KeyFile) :
  exists rest,
    name each = username_of each ++ rest
    /\ (46 ∉ username_of each)
    /\ (rest = [] \/ head rest = Some 46).
Proof.
  unfold username_of, split.
  destruct (split_from_head 46 (name each) []) as (u & rest & Hh & Hs & Hu & Hrest).
  rewrite Hh. cbn. by exists rest.
Qed.

Section Names.
Context (out : Outside).

Lemma existing_of_attempted evs n : n ∈ existing_of evs -> n ∈ attempted_of evs.
Proof.
  unfold existing_of, attempted_of. rewrite !list_elem_of_omap.
  intros (ev & Hin & Hev). exists ev. split; [done |].
  destruct ev as [| ? ? [[code|]|] | | |]; try done.
  by destruct (str_eqb code _).
Qed.

Lemma imported_of_attempted evs n : n ∈ imported_of evs -> n ∈ attempted_of evs.
Proof.
  unfold imported_of, attempted_of. rewrite !list_elem_of_omap.
  intros (ev & Hin & Hev). exists ev. split; [done |].
  by destruct ev as [| ? ? [[|]|] | | |].
Qed.

Lemma has_marker_derived u : has_marker (u ++ gh_key).
Proof. apply has_marker_spec. exists u, []. by rewrite app_nil_r. Qed.

Lemma elem_of_derived_names users n :
  n ∈ derived_names users <-> exists u, u ∈ users.*1 /\ n = u ++ gh_key.
Proof.
  unfold derived_names. rewrite list_elem_of_fmap. split.
  - intros ([u k] & -> & Hin). exists u. split; [| done].
    apply list_elem_of_fmap. by exists (u, k).
  - intros (u & Hin & ->). apply list_elem_of_fmap in Hin as ([u' k] & -> & Hin).
    by exists (u', k).
Qed.

End Names.

(** X4. Whatever the provider answers, every name that
    [upload_aws_key_pairs] returns is the name derived from a user of the
    map, and it carries the marker "-gh-key", which is matched anywhere in
    a name. *)
Theorem upload_aws_key_pairs_returns_marked_names (out : Outside)
    (users : list (pystr * pystr)) (w : World) :
  match (upload_aws_key_pairs out users w).1 with
  | Ret r =>
      Forall (fun n => (exists u, u ∈ users.*1 /\ n = u ++ gh_key)
                       /\ exists pre post, n = pre ++ py "-gh-key" ++ post)
             (names_of r)
  | Raise _ => False
  end.
Proof.
  rewrite upload_aws_key_pairs_run. cbn [fst].
  destruct (import_loop_spec out users [] [] w) as (evs & _ & Hatt & Hres).
  destruct Hres as [(-> & _) | (-> & _)]; cbn [names_of app]; [constructor |].
  apply Forall_forall. intros n Hn. rewrite py_sort_elem_of in Hn.
  assert (n ∈ derived_names users) as Hd.
  { apply (subseteq_take (length evs)). rewrite <- Hatt.
    apply elem_of_app in Hn as [Hn | Hn];
      [by apply existing_of_attempted | by apply imported_of_attempted]. }
  apply elem_of_derived_names in Hd as (u & Hu & ->). split; [by exists u |].
  apply has_marker_spec, has_marker_derived.
Qed.

(** ** The listing request and the file requests *)

Section Fetch.
Context (out : Outside).

Lemma get_repo_contents_run dir hdrs w :
  get_repo_contents out dir hdrs w =
  (match requests_get out (events w) dir hdrs with
   | inl e => Raise (Lib e)
   | inr resp =>
       if ((100 <=? status_code resp) && (status_code resp <? 600)
           && negb (status_code resp =? 200))%Z
       then Raise (ConnectionError "Error: Bad response" (status_code resp) (reason resp))
       else match content_utf8 resp with
            | None => Raise (Lib (OtherException "UnicodeDecodeError"))
            | Some text =>
                match json_loads out text with
                | Some contents => Ret contents
                | None => Raise (Lib (OtherException "JSONDecodeError"))
                end
            end
   end,
   add_event (EvGet dir hdrs (requests_get out (events w) dir hdrs)) w).
Proof.
  unfold get_repo_contents, bind, http_get, decode_utf8.
  destruct (requests_get out (events w) dir hdrs) as [e|resp]; [done |]. cbn.
  destruct (_ && _)%bool; [done |].
  destruct (content_utf8 resp) as [text|]; [| done]. cbn.
  by destruct (json_loads out text).
Qed.

(** One turn of the loop of lines 24-36. *)
Lemma fetch_users_loop_cons each rest dir hdrs d w :
  fetch_users_loop out (each :: rest) dir hdrs d w =
  let o := requests_get out (events w) (dir ++ name each) hdrs in
  let w' := add_event (EvGet (dir ++ name each) hdrs o) w in
  match o with
  | inl e => (Raise (Lib e), w')
  | inr resp =>
      match content_utf8 resp with
      | None => (Raise (Lib (OtherException "UnicodeDecodeError")), w')
      | Some key =>
          fetch_users_loop out rest dir hdrs
            (dict_set d (username_of each) (remove_blank_lines key)) w'
      end
  end.
Proof.
  cbn [fetch_users_loop]. unfold bind, http_get, decode_utf8.
  destruct (requests_get out (events w) (dir ++ name each) hdrs) as [e|resp]; [done |].
  cbn. by destruct (content_utf8 resp).
Qed.

Lemma fetch_users_loop_app c1 c2 dir hdrs : forall d w,
  fetch_users_loop out (c1 ++ c2) dir hdrs d w =
  match fetch_users_loop out c1 dir hdrs d w with
  | (Ret d', w1) => fetch_users_loop out c2 dir hdrs d' w1
  | (Raise e, w1) => (Raise e, w1)
  end.
Proof.
  induction c1 as [|each c1 IH]; intros d w; [done |].
  cbn [app]. rewrite !fetch_users_loop_cons. cbv zeta.
  destruct (requests_get out (events w) (dir ++ name each) hdrs) as [e|resp]; [done |].
  destruct (content_utf8 resp); [apply IH | done].
Qed.

(** The requests of the loop: one per entry, in order, up to the first
    failure. *)
Lemma fetch_users_loop_trace contents dir hdrs : forall d w,
  exists evs,
    (fetch_users_loop out contents dir hdrs d w).2 = add_events evs w
    /\ Forall (fun ev => is_get ev = true) evs
    /\ requested_of evs
       = take (length evs) ((fun each => dir ++ name each) <$> contents)
    /\ match (fetch_users_loop out contents dir hdrs d w).1 with
       | Ret _ => length evs = length contents
       | Raise e =>
           exists evs0 u o,
             evs = evs0 ++ [EvGet u hdrs o]
             /\ match o with
                | inl le => e = Lib le
                | inr resp => content_utf8 resp = None
                end
       end.
Proof.
  induction contents as [|each rest IH]; intros d w.
  - exists []. by rewrite add_events_nil.
  - rewrite fetch_users_loop_cons. cbv zeta.
    destruct (requests_get out (events w) (dir ++ name each) hdrs) as [e|resp] eqn:Eo.
    + exists [EvGet (dir ++ name each) hdrs (inl e)]. repeat split; try done.
      * by repeat constructor.
      * exists [], (dir ++ name each), (inl e). done.
    + destruct (content_utf8 resp) as [key|] eqn:Ec.
      * destruct (IH (dict_set d (username_of each) (remove_blank_lines key))
                    (add_event (EvGet (dir ++ name each) hdrs (inr resp)) w))
          as (evs & Hw & Hget & Hreq & Hres).
        exists (EvGet (dir ++ name each) hdrs (inr resp) :: evs).
        rewrite Hw, add_events_cons. split; [done |]. split; [by constructor |]. split.
        { unfold requested_of in *. cbn. by rewrite Hreq. }
        destruct (fetch_users_loop out rest dir hdrs _ _).1 as [users|e].
        -- cbn. by rewrite Hres.
        -- destruct Hres as (evs0 & u & o & -> & Ho).
           by exists (EvGet (dir ++ name each) hdrs (inr resp) :: evs0), u, o.
      * exists [EvGet (dir ++ name each) hdrs (inr resp)]. repeat split; try done.
        -- by repeat constructor.
        -- exists [], (dir ++ name each), (inr resp). done.
Qed.

(** The keys of a dict after [d[k] = v]. *)
Lemma dict_set_keys d k v :
  (dict_set d k v).*1 = if decide (k ∈ d.*1) then d.*1 else d.*1 ++ [k].
Proof.
  induction d as [|[k' v'] d IH]; [done |].
  cbn [dict_set]. unfold str_eqb.
  destruct (bool_decide_reflect (k' = k)) as [-> | Hne].
  - cbn. rewrite decide_True by apply list_elem_of_here. done.
  - cbn [fmap list_fmap fst]. rewrite IH.
    destruct (decide (k ∈ d.*1)) as [Hin | Hin].
    + rewrite decide_True by (by apply list_elem_of_further). done.
    + rewrite decide_False; [done |].
      rewrite elem_of_cons. intros [? | ?]; [by subst | done].
Qed.

Lemma dict_set_NoDup d k v : NoDup d.*1 -> NoDup (dict_set d k v).*1.
Proof.
  intros Hnd. rewrite dict_set_keys. destruct (decide (k ∈ d.*1)); [done |].
  apply NoDup_app. split; [done |]. split; [| apply NoDup_singleton].
  intros x Hx Hk. apply list_elem_of_singleton in Hk. by subst.
Qed.

Lemma elem_of_dict_set_keys d k v u :
  u ∈ (dict_set d k v).*1 <-> u ∈ d.*1 \/ u = k.
Proof.
  rewrite dict_set_keys. destruct (decide (k ∈ d.*1)) as [Hin | Hin].
  - split; [by left | intros [? | ->]; done].
  - by rewrite elem_of_app, list_elem_of_singleton.
Qed.

Lemma dict_get_set_eq d k v : dict_get (dict_set d k v) k = Some v.
Proof.
  induction d as [|[k' v'] d IH]; cbn [dict_set dict_get]; unfold str_eqb.
  - by rewrite bool_decide_true.
  - destruct (bool_decide_reflect (k' = k)) as [-> | Hne]; cbn [dict_get]; unfold str_eqb.
    + by rewrite bool_decide_true.
    + by rewrite bool_decide_false.
Qed.

Lemma fetch_users_loop_keys contents dir hdrs : forall d w,
  NoDup d.*1 ->
  match (fetch_users_loop out contents dir hdrs d w).1 with
  | Ret users =>
      NoDup users.*1
      /\ (forall u, u ∈ users.*1
                    <-> u ∈ d.*1 \/ exists each, each ∈ contents /\ u = username_of each)
  | Raise _ => True
  end.
Proof.
  induction contents as [|each rest IH]; intros d w Hnd.
  - cbn. split; [done |]. intros u. split; [by left |].
    intros [? | (each & Hin & _)]; [done | by apply elem_of_nil in Hin].
  - rewrite fetch_users_loop_cons. cbv zeta.
    destruct (requests_get out (events w) (dir ++ name each) hdrs) as [e|resp]; [done |].
    destruct (content_utf8 resp) as [key|]; [| done].
    specialize (IH (dict_set d (username_of each) (remove_blank_lines key))
                   (add_event (EvGet (dir ++ name each) hdrs (inr resp)) w)
                   (dict_set_NoDup _ _ _ Hnd)).
    destruct (fetch_users_loop out rest dir hdrs _ _).1 as [users|e]; [| done].
    destruct IH as [Hnd' Hkeys]. split; [done |].
    intros u. rewrite Hkeys, elem_of_dict_set_keys. split.
    + intros [[? | ->] | (e' & Hin & ->)]; [by left | right | right].
      * exists each. split; [apply list_elem_of_here | done].
      * exists e'. split; [by apply list_elem_of_further | done].
    + intros [? | (e' & Hin & ->)]; [by left; left |].
      apply elem_of_cons in Hin as [-> | Hin]; [by left; right |].
      right. by exists e'.
Qed.

End Fetch.

(** X5. [get_repo_contents] makes exactly one request. When the request is
    answered, it raises [ConnectionError] with the status and reason of the
    answer exactly when the status lies in 100..599 and is not 200; a
    listing is returned only from a decodable, parsable body, and then the
    status is 200 or lies outside 100..599. *)
Theorem get_repo_contents_checks_status (out : Outside) (dir : pystr) (hdrs : headers)
    (w : World) (resp : Response) :
  requests_get out (events w) dir hdrs = inr resp ->
  (get_repo_contents out dir hdrs w).2 = add_event (EvGet dir hdrs (inr resp)) w
  /\ ((get_repo_contents out dir hdrs w).1
      = Raise (ConnectionError "Error: Bad response" (status_code resp) (reason resp))
      <-> (100 <= status_code resp < 600)%Z /\ status_code resp <> 200%Z)
  /\ match (get_repo_contents out dir hdrs w).1 with
     | Ret contents =>
         (status_code resp = 200 \/ status_code resp < 100 \/ 600 <= status_code resp)%Z
         /\ exists text, content_utf8 resp = Some text /\ json_loads out text = Some contents
     | Raise _ => True
     end.
Proof.
  intros Hget. rewrite get_repo_contents_run, Hget. cbn [fst snd].
  split; [done |].
  destruct ((100 <=? status_code resp)%Z && (status_code resp <? 600)%Z
            && negb (status_code resp =? 200)%Z) eqn:Hbad.
  - apply andb_true_iff in Hbad as [Hbad H200]. apply andb_true_iff in Hbad as [H1 H2].
    apply negb_true_iff in H200. split; [| done]. split; [intros _ | done]. lia.
  - assert (~ ((100 <= status_code resp < 600)%Z /\ status_code resp <> 200%Z)) as Hnot.
    { intros [[H1 H2] H3]. apply (proj2 (Z.leb_le _ _)) in H1.
      apply (proj2 (Z.ltb_lt _ _)) in H2. apply (proj2 (Z.eqb_neq _ _)) in H3.
      by rewrite H1, H2, H3 in Hbad. }
    split.
    + split; [| done]. destruct (content_utf8 resp) as [text|]; [| done].
      by destruct (json_loads out text).
    + destruct (content_utf8 resp) as [text|]; [| done].
      destruct (json_loads out text) as [contents|] eqn:Ej; [| done].
      split; [lia | by exists text].
Qed.

(** X5, witness: a request that the simulated server answers with 404. *)
Lemma get_repo_contents_checks_status_witness :
  (get_repo_contents Sim.scenario (py "https://api.github.com/none") [] Sim.start).1
  = Raise (ConnectionError "Error: Bad response" 404 (py "Not Found")).
Proof.
  destruct (get_repo_contents_checks_status Sim.scenario (py "https://api.github.com/none")
              [] Sim.start (Sim.not_found (py "https://api.github.com/none")))
    as (_ & [_ Hraise] & _).
  - vm_compute. reflexivity.
  - apply Hraise. cbn. lia.
Defined.

(** The requests of the loop, with their outcomes: nothing is requested
    after a request that failed. *)
Lemma fetch_users_loop_requests (out : Outside) contents dir hdrs : forall d w,
  exists evs,
    (fetch_users_loop out contents dir hdrs d w).2 = add_events evs w
    /\ Forall (fun ev => is_get ev = true) evs
    /\ Forall (fun ev => exists u o, ev = EvGet u hdrs o) evs
    /\ requested_of evs
       = take (length evs) ((fun each => dir ++ name each) <$> contents)
    /\ Forall (fun ev => is_fetched ev = true) (take (length evs - 1)%nat evs)
    /\ match (fetch_users_loop out contents dir hdrs d w).1 with
       | Ret _ =>
           length evs = length contents
           /\ Forall (fun ev => is_fetched ev = true) evs
       | Raise e =>
           match last evs with
           | Some (EvGet _ _ (inl le)) => e = Lib le
           | Some (EvGet _ _ (inr resp)) =>
               content_utf8 resp = None -> e = Lib (OtherException "UnicodeDecodeError")
           | _ => True
           end
       end.
Proof.
  induction contents as [|each rest IH]; intros d w.
  - exists []. rewrite add_events_nil. cbn. repeat split; constructor.
  - rewrite fetch_users_loop_cons. cbv zeta.
    destruct (requests_get out (events w) (dir ++ name each) hdrs) as [e|resp] eqn:Eo.
    + exists [EvGet (dir ++ name each) hdrs (inl e)]. cbn.
      split; [done |]. split; [by repeat constructor |].
      split; [repeat constructor; by eexists _, _ |]. split; [done |].
      split; [constructor | done].
    + destruct (content_utf8 resp) as [key|] eqn:Ec.
      * destruct (IH (dict_set d (username_of each) (remove_blank_lines key))
                    (add_event (EvGet (dir ++ name each) hdrs (inr resp)) w))
          as (evs & Hw & Hget & Hhdr & Hreq & Hinit & Hres).
        assert (Hev : is_fetched (EvGet (dir ++ name each) hdrs (inr resp)) = true)
          by (cbn; by rewrite Ec).
        exists (EvGet (dir ++ name each) hdrs (inr resp) :: evs).
        rewrite Hw, add_events_cons. split; [done |]. split; [by constructor |].
        split; [constructor; [by eexists _, _ | done] |]. split.
        { unfold requested_of in *. cbn. by rewrite Hreq. }
        split.
        { destruct evs as [|ev2 evs2]; [constructor |].
          cbn [length]. rewrite Nat.sub_succ, Nat.sub_0_r. cbn [take].
          constructor; [done |].
          cbn [length] in Hinit. by rewrite Nat.sub_succ, Nat.sub_0_r in Hinit. }
        destruct (fetch_users_loop out rest dir hdrs _ _).1 as [users|e].
        -- destruct Hres as [Hlen Hall]. split; [cbn; by rewrite Hlen | by constructor].
        -- destruct evs as [|ev2 evs2]; [cbn; by rewrite Ec |].
           by rewrite last_cons_cons.
      * exists [EvGet (dir ++ name each) hdrs (inr resp)]. cbn.
        split; [done |]. split; [by repeat constructor |].
        split; [repeat constructor; by eexists _, _ |]. split; [done |].
        split; [constructor | done].
Qed.

(** X6. [fetch_users] makes only file requests, under the headers it was
    given: one per listing entry, in listing order, each to the directory
    address followed by the file name. Nothing is requested after a
    request that raised or whose body is not UTF-8: every request but the
    last was answered with a decodable body, and when the last one raised,
    [fetch_users] raises that exception (an undecodable last body raises
    the decoding error). When [fetch_users] returns, every entry has been
    requested once and every request was answered with a decodable
    body. *)
Theorem fetch_users_requests_each_file_once (out : Outside) (contents : list KeyFile)
    (dir_path : pystr) (hdrs : headers) (w : World) :
  exists evs,
    (fetch_users out contents dir_path hdrs w).2 = add_events evs w
    /\ Forall (fun ev => is_get ev = true) evs
    /\ Forall (fun ev => exists u o, ev = EvGet u hdrs o) evs
    /\ requested_of evs
       = take (length evs) ((fun each => dir_path ++ name each) <$> contents)
    /\ Forall (fun ev => is_fetched ev = true) (take (length evs - 1)%nat evs)
    /\ match (fetch_users out contents dir_path hdrs w).1 with
       | Ret _ =>
           length evs = length contents
           /\ Forall (fun ev => is_fetched ev = true) evs
       | Raise e =>
           match last evs with
           | Some (EvGet _ _ (inl le)) => e = Lib le
           | Some (EvGet _ _ (inr resp)) =>
               content_utf8 resp = None -> e = Lib (OtherException "UnicodeDecodeError")
           | _ => True
           end
       end.
Proof. apply fetch_users_loop_requests. Qed.

(** X7. The map that [fetch_users] returns has no user twice, and its
    users are exactly the user names of the listing entries. *)
Theorem fetch_users_keys_are_the_listed_users (out : Outside) (contents : list KeyFile)
    (dir_path : pystr) (hdrs : headers) (w : World) :
  match (fetch_users out contents dir_path hdrs w).1 with
  | Ret users =>
      NoDup users.*1
      /\ (forall u, u ∈ users.*1 <-> exists each, each ∈ contents /\ u = username_of each)
  | Raise _ => True
  end.
Proof.
  pose proof (fetch_users_loop_keys out contents dir_path hdrs [] w (NoDup_nil_2)) as H.
  unfold fetch_users. destruct (fetch_users_loop out contents dir_path hdrs [] w).1; [| done].
  destruct H as [Hnd Hkeys]. split; [done |]. intros u. rewrite Hkeys. split.
  - intros [Hin | ?]; [by apply elem_of_nil in Hin | done].
  - by right.
Qed.

(** X8. The last file of a user wins: when the listing ends with [each]
    and [fetch_users] returns, the entry of the user of [each] holds the
    normalised body of the last request, whatever earlier files of that
    user held. *)
Theorem fetch_users_last_file_wins (out : Outside) (contents : list KeyFile)
    (each : KeyFile) (dir_path : pystr) (hdrs : headers) (w w' : World)
    (users : list (pystr * pystr)) :
  fetch_users out (contents ++ [each]) dir_path hdrs w = (Ret users, w') ->
  exists hist resp key,
    events w' = hist ++ [EvGet (dir_path ++ name each) hdrs (inr resp)]
    /\ content_utf8 resp = Some key
    /\ dict_get users (username_of each) = Some (remove_blank_lines key).
Proof.
  unfold fetch_users. rewrite fetch_users_loop_app.
  destruct (fetch_users_loop out contents dir_path hdrs [] w) as [[d|e] w1]; [| done].
  rewrite fetch_users_loop_cons. cbv zeta.
  destruct (requests_get out (events w1) (dir_path ++ name each) hdrs) as [e|resp];
    [done |].
  destruct (content_utf8 resp) as [key|] eqn:Ec; [| done].
  cbn [fetch_users_loop]. intros [= <- <-].
  exists (events w1), resp, key. split; [done |]. split; [done |].
  apply dict_get_set_eq.
Qed.

(** X8, witness: [alice.pub] then [alice.txt]; the key of [alice.txt] is
    the one stored for alice. *)
Lemma fetch_users_last_file_wins_witness :
  exists hist resp key,
    events (fetch_users Sim.renamed [Sim.alice_pub; Sim.alice_txt] Sim.dir_path []
              Sim.start).2
    = hist ++ [EvGet (Sim.dir_path ++ py "alice.txt") [] (inr resp)]
    /\ content_utf8 resp = Some key
    /\ dict_get [(py "alice", py "ssh-rsa NEW")] (py "alice")
       = Some (remove_blank_lines key).
Proof.
  apply (fetch_users_last_file_wins Sim.renamed [Sim.alice_pub] Sim.alice_txt
           Sim.dir_path [] Sim.start
           (fetch_users Sim.renamed [Sim.alice_pub; Sim.alice_txt] Sim.dir_path []
              Sim.start).2
           [(py "alice", py "ssh-rsa NEW")]).
  vm_compute. reflexivity.
Defined.

(** ** The handler: authorization and configuration *)

Section Orchestration.
Context (out : Outside).

Lemma render_template_run users w :
  render_template out users w =
  match users with
  | [] => (Raise no_users_fetched, w)
  | _ :: _ =>
      match render_init_j2 out users with
      | inl e => (Raise (Lib e), w)
      | inr config => (Ret tt, write_init_conf (remove_blank_lines config) w)
      end
  end.
Proof.
  unfold render_template. destruct users; [done |].
  by destruct (render_init_j2 out _).
Qed.

(** Rendering makes no call and leaves the environment alone. *)
Lemma render_template_world users w :
  events (render_template out users w).2 = events w
  /\ environ (render_template out users w).2 = environ w.
Proof.
  rewrite render_template_run. destruct users; [done |].
  by destruct (render_init_j2 out _).
Qed.

(** The bucket handed to the upload is read from the environment at the
    start. *)
Lemma fetch_and_render_bucket w p w2 :
  fetch_and_render out w = (Ret p, w2) -> p.2 = environ w !! py "s3_bucket".
Proof.
  unfold fetch_and_render, bind, environ_get.
  destruct (environ w !! py "contents_url") as [d|]; [| done].
  destruct (environ w !! py "github_token") as [t|]; [| done].
  destruct (get_repo_contents out _ _ w) as [[data|e] w1]; [| done].
  destruct (fetch_users out data _ _ w1) as [[users|e] w1']; [| done].
  destruct (render_template out users w1') as [[[]|e] w1'']; [| done].
  by intros [= <- _].
Qed.

(** A text without its trailing slashes. *)
Lemma rstrip_slashes d :
  exists n, d = rstrip_chars (py "/") d ++ replicate n 47
            /\ last (rstrip_chars (py "/") d) <> Some 47.
Proof.
  unfold rstrip_chars.
  destruct (rstrip_by_split (fun c => bool_decide (c ∈ py "/")) d) as (suf & Hd & Hsuf).
  exists (length suf). split.
  - rewrite Hd at 1. f_equal. symmetry. apply replicate_as_Forall. split; [done |].
    eapply Forall_impl; [exact Hsuf |]. intros c Hc. cbn beta in Hc.
    apply bool_decide_eq_true in Hc. change (py "/") with [47] in Hc.
    by apply list_elem_of_singleton in Hc.
  - intros Hl. apply rstrip_by_last in Hl. by vm_compute in Hl.
Qed.

End Orchestration.

(** X9. A remote request whose repository identifier differs from the
    expected one is answered with the 403 response, and nothing else
    happens: no request, no call to the provider, no file written. *)
Theorem lambda_handler_denies_other_repositories (out : Outside) (event : LambdaEvent)
    (w : World) (req_id : pystr) :
  repository_id event = Some req_id ->
  req_id <> str_of (environ w !! py "repo_id") ->
  lambda_handler out event OtherObject w = (Ret response_denied, w).
Proof.
  intros Hid Hne. unfold lambda_handler, bind, auth_check. rewrite Hid.
  rewrite github_auth_handler_run. unfold str_eqb.
  rewrite bool_decide_false by (intros ?; by apply Hne). reflexivity.
Qed.

(** X9, witness: the expected identifier is "42", the request carries "43". *)
Lemma lambda_handler_denies_other_repositories_witness :
  lambda_handler Sim.scenario (Sim.webhook (py "43")) OtherObject Sim.start
  = (Ret response_denied, Sim.start).
Proof.
  apply (lambda_handler_denies_other_repositories Sim.scenario (Sim.webhook (py "43"))
           Sim.start (py "43")).
  - reflexivity.
  - vm_compute. discriminate.
Defined.

(** X10. An authorized remote request runs exactly as a local invocation
    does, whatever event the local invocation is given. *)
Theorem lambda_handler_authorized_runs_as_local (out : Outside)
    (event event' : LambdaEvent) (w : World) :
  repository_id event = Some (str_of (environ w !! py "repo_id")) ->
  lambda_handler out event OtherObject w = lambda_handler out event' LocalLiteral w.
Proof.
  intros Hid. unfold lambda_handler, bind, auth_check. rewrite Hid.
  rewrite github_auth_handler_run. unfold str_eqb.
  by rewrite bool_decide_true.
Qed.

(** X10, witness: the request "42" against the expected "42". *)
Lemma lambda_handler_authorized_runs_as_local_witness :
  lambda_handler Sim.scenario (Sim.webhook (py "42")) OtherObject Sim.start
  = lambda_handler Sim.scenario Sim.local_event LocalLiteral Sim.start.
Proof.
  apply (lambda_handler_authorized_runs_as_local Sim.scenario (Sim.webhook (py "42"))
           Sim.local_event Sim.start).
  vm_compute. reflexivity.
Defined.

(** X11. Without [contents_url] or without [github_token] in the
    environment a local run raises an [AttributeError] or a [TypeError]
    before anything happens: no request, no call, no file written. *)
Theorem lambda_handler_needs_configuration (out : Outside) (event : LambdaEvent)
    (w : World) :
  environ w !! py "contents_url" = None \/ environ w !! py "github_token" = None ->
  exists nm,
    lambda_handler out event LocalLiteral w = (Raise (Lib (OtherException nm)), w)
    /\ (nm = "AttributeError"%string \/ nm = "TypeError"%string).
Proof.
  intros Hcfg. unfold lambda_handler, bind, auth_check, ret. cbn [negb].
  unfold fetch_and_render, bind, environ_get.
  destruct (environ w !! py "contents_url") as [d|].
  - destruct Hcfg as [? | ->]; [done |]. exists "TypeError"%string. split; [done | by right].
  - exists "AttributeError"%string. split; [done | by left].
Qed.

(** X11, witness: an empty environment. *)
Lemma lambda_handler_needs_configuration_witness :
  exists nm,
    lambda_handler Sim.scenario Sim.local_event LocalLiteral
      {| environ := ∅; init_conf := None; events := [] |}
    = (Raise (Lib (OtherException nm)), {| environ := ∅; init_conf := None; events := [] |})
    /\ (nm = "AttributeError"%string \/ nm = "TypeError"%string).
Proof.
  apply (lambda_handler_needs_configuration Sim.scenario Sim.local_event
           {| environ := ∅; init_conf := None; events := [] |}).
  left. reflexivity.
Defined.

(** X12. With the configuration present, the steps before the import make
    only HTTP requests. The first one asks for the listing at
    [contents_url] with its trailing slashes replaced by one slash, under
    the headers that carry the token; the environment is left alone. *)
Theorem fetch_and_render_requests_listing_first (out : Outside) (w : World)
    (d t : pystr) :
  environ w !! py "contents_url" = Some d ->
  environ w !! py "github_token" = Some t ->
  exists base n o rest,
    d = base ++ replicate n 47
    /\ last base <> Some 47
    /\ events (fetch_and_render out w).2
       = events w ++ EvGet (base ++ py "/") (github_headers t) o :: rest
    /\ Forall (fun ev => is_get ev = true) rest
    /\ environ (fetch_and_render out w).2 = environ w.
Proof.
  intros Hd Ht. destruct (rstrip_slashes d) as (n & Hbase & Hlast).
  exists (rstrip_chars (py "/") d), n.
  rewrite (fetch_and_render_run out w d t Hd Ht). cbv zeta.
  fold (github_headers t). set (dir := rstrip_chars (py "/") d ++ py "/").
  exists (requests_get out (events w) dir (github_headers t)).
  pose proof (get_repo_contents_world out dir (github_headers t) w) as Hw1.
  unfold bind, fetch_users.
  destruct (get_repo_contents out dir (github_headers t) w) as [[data|e] w1];
    cbn [snd] in Hw1; subst w1; [| by exists []].
  destruct (fetch_users_loop_trace out data dir (github_headers t) []
              (add_event (EvGet dir (github_headers t)
                 (requests_get out (events w) dir (github_headers t))) w))
    as (evs & Hw2 & Hget & _).
  destruct (fetch_users_loop out data dir (github_headers t) [] _) as [[users|e] w2];
    cbn [snd] in Hw2; subst w2; exists evs.
  - pose proof (render_template_world out users
                  (add_events evs (add_event (EvGet dir (github_headers t)
                     (requests_get out (events w) dir (github_headers t))) w)))
      as [Hev Henv].
    destruct (render_template out users _) as [[[]|e] w3];
      cbv beta iota delta [ret snd] in *;
      rewrite Hev, Henv; cbn; by rewrite <- app_assoc.
  - cbn. by rewrite <- app_assoc.
Qed.

(** X12, witness: the address of the simulated directory, written without
    its final slash in the environment. *)
Lemma fetch_and_render_requests_listing_first_witness :
  exists base n o rest,
    py "https://api.github.com/repos/org/keys/contents/pub" = base ++ replicate n 47
    /\ last base <> Some 47
    /\ events (fetch_and_render Sim.scenario Sim.start).2
       = events Sim.start ++ EvGet (base ++ py "/") (github_headers (py "t0ken")) o :: rest
    /\ Forall (fun ev => is_get ev = true) rest
    /\ environ (fetch_and_render Sim.scenario Sim.start).2 = environ Sim.start.
Proof.
  apply (fetch_and_render_requests_listing_first Sim.scenario Sim.start
           (py "https://api.github.com/repos/org/keys/contents/pub") (py "t0ken"));
    vm_compute; reflexivity.
Defined.

(** ** The handler: what a response tells *)

(** X13. When the handler returns, the response has one of the three
    shapes. The 403 response leaves the world untouched. The success
    response is returned only right after an upload of [/tmp/init.conf]
    that completed, under the name [init.conf], to the bucket that
    [s3_bucket] named at the start of the run. *)
Theorem lambda_handler_response_shapes (out : Outside) (event : LambdaEvent)
    (context : PyContext) (w w' : World) (r : HttpResponse) :
  lambda_handler out event context w = (Ret r, w') ->
  (r = response_denied /\ w' = w /\ context = OtherObject)
  \/ r = response_failed
  \/ (r = response_success
      /\ init_conf w' <> None
      /\ exists hist,
           events w'
           = hist ++ [EvUploadFile (py "/tmp/init.conf") (environ w !! py "s3_bucket")
                                   (py "init.conf") None]).
Proof.
  unfold lambda_handler, bind.
  pose proof (auth_check_world event context w) as Hw1.
  destruct (auth_check event context w) as [[[|]|e] w1] eqn:Ha; cbn [snd negb] in *;
    subst w1; [| | done].
  - pose proof (fetch_and_render_bucket out w) as Hb.
    destruct (fetch_and_render out w) as [[p|e] w2]; [| done].
    rewrite (Hb p w2 eq_refl). cbv zeta.
    destruct (upload_aws_key_pairs out p.1 w2) as [[aws|e] w3]; [| done].
    destruct (truthy aws); cbn [negb].
    + destruct (clean_aws_key_pairs out aws w3) as [[dl|e] w4]; [| done].
      rewrite upload_to_s3_run.
      destruct (init_conf w4) as [conf|] eqn:Hconf.
      * destruct (upload_file out (events w4) _ _ _) as [le|].
        -- intros [= <- <-]. right. left. apply http_response_shapes.
        -- intros [= <- <-]. right. right. split; [apply http_response_shapes |].
           split; [cbn; by rewrite Hconf |]. by exists (events w4).
      * intros [= <- <-]. right. left. apply http_response_shapes.
    + intros [= <- <-]. right. left. apply http_response_shapes.
  - intros [= <- <-]. left. split; [apply http_response_shapes |]. split; [done |].
    by destruct context.
Qed.

(** X13, witness: the end-to-end run reports success after the upload to
    the configured bucket. *)
Lemma lambda_handler_response_shapes_witness :
  exists hist,
    events (lambda_handler Sim.scenario (Sim.webhook (py "42")) OtherObject Sim.start).2
    = hist ++ [EvUploadFile (py "/tmp/init.conf") (Some (py "bucket")) (py "init.conf") None].
Proof.
  destruct (lambda_handler_response_shapes Sim.scenario (Sim.webhook (py "42"))
              OtherObject Sim.start
              (lambda_handler Sim.scenario (Sim.webhook (py "42")) OtherObject Sim.start).2
              response_success)
    as [(Hr & _) | [Hr | (_ & _ & Hup)]].
  - vm_compute. reflexivity.
  - vm_compute in Hr. discriminate Hr.
  - vm_compute in Hr. discriminate Hr.
  - exact Hup.
Defined.

(** X14. A successful render replaces whatever [/tmp/init.conf] held by
    the normalised output of the template, makes no call, and from then on
    [upload_to_s3] never gives up for a missing file: whatever calls
    happen in between, it makes its one upload call. *)
Theorem render_template_then_upload (out : Outside) (users : list (pystr * pystr))
    (config : pystr) (w : World) (evs : list Event) (bucket_name : option pystr) :
  users <> [] ->
  render_init_j2 out users = inr config ->
  render_template out users w = (Ret tt, write_init_conf (remove_blank_lines config) w)
  /\ init_conf (render_template out users w).2 = Some (remove_blank_lines config)
  /\ events (render_template out users w).2 = events w
  /\ (upload_to_s3 out bucket_name (add_events evs (render_template out users w).2)).2
     = add_event
         (EvUploadFile (py "/tmp/init.conf") bucket_name (py "init.conf")
            (upload_file out (events w ++ evs) (py "/tmp/init.conf") bucket_name
               (py "init.conf")))
         (add_events evs (render_template out users w).2).
Proof.
  intros Hne Hr. rewrite render_template_run, Hr.
  destruct users as [|kv users]; [done |]. cbn [snd].
  repeat split. by rewrite upload_to_s3_run.
Qed.

(** X14, witness: the template of the simulation rendered for two users
    over a stale file. *)
Lemma render_template_then_upload_witness :
  init_conf (render_template Sim.scenario Sim.fetched_users
               {| environ := ∅; init_conf := Some (py "stale"); events := [] |}).2
  <> Some (py "stale")
  /\ events (upload_to_s3 Sim.scenario (Some (py "bucket"))
               (render_template Sim.scenario Sim.fetched_users
                  {| environ := ∅; init_conf := Some (py "stale"); events := [] |}).2).2
     = [EvUploadFile (py "/tmp/init.conf") (Some (py "bucket")) (py "init.conf") None].
Proof.
  destruct (render_template_then_upload Sim.scenario Sim.fetched_users
              (match Sim.template Sim.fetched_users with inr c => c | inl _ => [] end)
              {| environ := ∅; init_conf := Some (py "stale"); events := [] |}
              [] (Some (py "bucket")))
    as (_ & Hconf & _ & Hup).
  - discriminate.
  - vm_compute. reflexivity.
  - split.
    + rewrite Hconf. vm_compute. discriminate.
    + rewrite add_events_nil in Hup. rewrite Hup. vm_compute. reflexivity.
Defined.

(** ** Pruning: refusals and failures *)

Section Pruning.
Context (out : Outside).

(** The calls of the clean loop: the stale names are deleted in order, up
    to the first deletion that the provider refuses. *)
Lemma clean_loop_trace l aws : forall deleted w,
  exists evs,
    (clean_loop out l aws deleted w).2 = add_events evs w
    /\ match (clean_loop out l aws deleted w).1 with
       | Ret d =>
           d = deleted ++ filter (fun key => key ∉ l) aws
           /\ evs = (fun n => EvDeleteKeyPair n None) <$> filter (fun key => key ∉ l) aws
       | Raise e =>
           exists done n le rest,
             filter (fun key => key ∉ l) aws = done ++ n :: rest
             /\ evs = ((fun n => EvDeleteKeyPair n None) <$> done)
                      ++ [EvDeleteKeyPair n (Some le)]
             /\ e = Lib le
       end.
Proof.
  induction aws as [|key rest IH]; intros deleted w.
  - exists []. rewrite add_events_nil. cbn. by rewrite app_nil_r.
  - rewrite clean_loop_cons, filter_cons.
    destruct (bool_decide_reflect (key ∈ l)) as [Hin | Hin].
    + rewrite decide_False by (intros ?; done). apply IH.
    + rewrite decide_True by done.
      destruct (delete_key_pair out (events w) key) as [le|] eqn:Eo; cbv beta iota zeta.
      * exists [EvDeleteKeyPair key (Some le)]. split; [done |].
        exists [], key, le, (filter (fun key => key ∉ l) rest). done.
      * destruct (IH (deleted ++ [key]) (add_event (EvDeleteKeyPair key None) w))
          as (evs & Hw & Hres).
        exists (EvDeleteKeyPair key None :: evs). rewrite Hw, add_events_cons.
        split; [done |].
        destruct (clean_loop out l rest (deleted ++ [key]) _).1 as [d|e].
        -- destruct Hres as [-> ->]. by rewrite <- app_assoc.
        -- destruct Hres as (done & n & le & rest' & Hst & -> & ->).
           exists (key :: done), n, le, rest'. rewrite Hst. done.
Qed.

(** Whatever happens, Clean deletes no name of the import result. *)
Lemma clean_aws_key_pairs_spares r w :
  exists evs,
    (clean_aws_key_pairs out r w).2 = add_events evs w
    /\ forall n, n ∈ deleted_of evs -> n ∉ names_of r.
Proof.
  destruct r as [|[|x l]].
  - exists []. rewrite add_events_nil. split; [done |]. by intros n ?%elem_of_nil.
  - exists []. rewrite add_events_nil. split; [done |]. by intros n ?%elem_of_nil.
  - rewrite clean_aws_key_pairs_cons. cbn [names_of].
    destruct (describe_key_pairs out (events w)) as [e|names]; cbv beta iota zeta.
    + exists [EvDescribeKeyPairs (inl e)]. split; [done |]. by intros n ?%elem_of_nil.
    + destruct (clean_loop_safe out (x :: l) (py_sort (filter has_marker names)) []
                  (add_event (EvDescribeKeyPairs (inr names)) w))
        as (evs & Hw & Hdel & _).
      exists (EvDescribeKeyPairs (inr names) :: evs). rewrite Hw, add_events_cons.
      split; [done |]. intros n Hn. by apply (Hdel n).
Qed.

End Pruning.

(** X15. Clean raises its "no match" error exactly when the import result
    is [False] or the empty list, and it then leaves the world untouched:
    no call to the provider is made. *)
Theorem clean_aws_key_pairs_rejects_empty_result (out : Outside) (github_keys : py_result)
    (w : World) :
  ((clean_aws_key_pairs out github_keys w).1 = Raise no_match
   <-> truthy github_keys = false)
  /\ (clean_aws_key_pairs out github_keys w = (Raise no_match, w)
      <-> truthy github_keys = false).
Proof.
  assert (H1 : (clean_aws_key_pairs out github_keys w).1 = Raise no_match
               <-> truthy github_keys = false).
  { destruct github_keys as [|[|x l]]; try (split; done).
    rewrite clean_aws_key_pairs_cons. cbv zeta.
    destruct (describe_key_pairs out (events w)) as [e|names] eqn:Ed; [split; done |].
    destruct (clean_loop_trace out (x :: l) (py_sort (filter has_marker names)) []
                (add_event (EvDescribeKeyPairs (inr names)) w)) as (evs & Hw & Hres).
    split; [| done]. intros Hr. rewrite Hr in Hres.
    by destruct Hres as (? & ? & ? & ? & _ & _ & ?). }
  split; [exact H1 |]. split.
  - intros Hrun. apply H1. by rewrite Hrun.
  - intros Ht. by destruct github_keys as [|[|x l]].
Qed.

(** X16. With a non-empty import result, Clean first lists the registry.
    If the listing raises, Clean raises the same exception and deletes
    nothing. Otherwise it deletes the stale names in sorted order: it
    returns all of them when every deletion succeeds, and at the first
    deletion that the provider refuses it raises the provider's exception,
    the stale names before that one being deleted and those after it not
    being tried. *)
Theorem clean_aws_key_pairs_stops_at_refusal (out : Outside) (github_keys : py_result)
    (w : World) :
  truthy github_keys = true ->
  match describe_key_pairs out (events w) with
  | inl e =>
      clean_aws_key_pairs out github_keys w
      = (Raise (Lib e), add_event (EvDescribeKeyPairs (inl e)) w)
  | inr names =>
      exists evs,
        (clean_aws_key_pairs out github_keys w).2
        = add_events (EvDescribeKeyPairs (inr names) :: evs) w
        /\ match (clean_aws_key_pairs out github_keys w).1 with
           | Ret d =>
               d = stale_names (names_of github_keys) names
               /\ evs = (fun n => EvDeleteKeyPair n None)
                          <$> stale_names (names_of github_keys) names
           | Raise e =>
               exists done n le rest,
                 stale_names (names_of github_keys) names = done ++ n :: rest
                 /\ evs = ((fun n => EvDeleteKeyPair n None) <$> done)
                          ++ [EvDeleteKeyPair n (Some le)]
                 /\ e = Lib le
           end
  end.
Proof.
  intros Ht. destruct github_keys as [|[|x l]]; try done. cbn [names_of].
  rewrite clean_aws_key_pairs_cons. cbv zeta.
  destruct (describe_key_pairs out (events w)) as [e|names]; [done |].
  destruct (clean_loop_trace out (x :: l) (py_sort (filter has_marker names)) []
              (add_event (EvDescribeKeyPairs (inr names)) w)) as (evs & Hw & Hres).
  exists evs. rewrite Hw, add_events_cons. split; [done |]. exact Hres.
Qed.

(** X16, witness: the registry holds the stale [carol-gh-key] and
    [dave-gh-key], and the provider refuses to delete the first. *)
Lemma clean_aws_key_pairs_stops_at_refusal_witness :
  match describe_key_pairs Sim.undeletable (events Sim.start) with
  | inl e =>
      clean_aws_key_pairs Sim.undeletable (PyList [py "alice-gh-key"; py "bob-gh-key"])
        Sim.start
      = (Raise (Lib e), add_event (EvDescribeKeyPairs (inl e)) Sim.start)
  | inr names =>
      exists evs,
        (clean_aws_key_pairs Sim.undeletable (PyList [py "alice-gh-key"; py "bob-gh-key"])
           Sim.start).2
        = add_events (EvDescribeKeyPairs (inr names) :: evs) Sim.start
        /\ match (clean_aws_key_pairs Sim.undeletable
                    (PyList [py "alice-gh-key"; py "bob-gh-key"]) Sim.start).1 with
           | Ret d =>
               d = stale_names [py "alice-gh-key"; py "bob-gh-key"] names
               /\ evs = (fun n => EvDeleteKeyPair n None)
                          <$> stale_names [py "alice-gh-key"; py "bob-gh-key"] names
           | Raise e =>
               exists done n le rest,
                 stale_names [py "alice-gh-key"; py "bob-gh-key"] names
                 = done ++ n :: rest
                 /\ evs = ((fun n => EvDeleteKeyPair n None) <$> done)
                          ++ [EvDeleteKeyPair n (Some le)]
                 /\ e = Lib le
           end
  end.
Proof.
  apply (clean_aws_key_pairs_stops_at_refusal Sim.undeletable
           (PyList [py "alice-gh-key"; py "bob-gh-key"]) Sim.start).
  reflexivity.
Defined.

(** X17. When every registration of the run succeeds or reports a
    duplicate, the key pair of a user of the map is never pruned: whenever
    Clean later runs on the import result, it deletes no derived name. *)
Theorem current_users_are_never_pruned (out : Outside) (users : list (pystr * pystr))
    (w : World) :
  registrations_ok out (events w) users = true ->
  exists r w1,
    upload_aws_key_pairs out users w = (Ret r, w1)
    /\ forall w2, exists evs,
         (clean_aws_key_pairs out r w2).2 = add_events evs w2
         /\ Forall (fun n => n ∉ derived_names users) (deleted_of evs).
Proof.
  intros Hok. destruct (import_loop_ok out users [] [] w Hok) as (evs0 & Hrun & Hperm).
  eexists _, _. rewrite upload_aws_key_pairs_run, Hrun. cbn [fst snd app].
  split; [reflexivity |]. intros w2.
  destruct (clean_aws_key_pairs_spares out
              (PyList (py_sort (existing_of evs0 ++ imported_of evs0))) w2)
    as (evs & Hw & Hdel).
  exists evs. split; [done |]. apply Forall_forall. intros n Hn Hd.
  apply (Hdel n Hn). cbn [names_of]. rewrite py_sort_elem_of. by rewrite Hperm.
Qed.

(** X17, witness: alice is already registered, bob is imported; the
    following Clean deletes [carol-gh-key] only. *)
Lemma current_users_are_never_pruned_witness :
  exists r w1,
    upload_aws_key_pairs Sim.half_registered Sim.fetched_users Sim.start = (Ret r, w1)
    /\ forall w2, exists evs,
         (clean_aws_key_pairs Sim.half_registered r w2).2 = add_events evs w2
         /\ Forall (fun n => n ∉ derived_names Sim.fetched_users) (deleted_of evs).
Proof.
  apply (current_users_are_never_pruned Sim.half_registered Sim.fetched_users Sim.start).
  vm_compute. reflexivity.
Defined.

(** ** The response, the import result and the order of the calls *)

Lemma http_response_cases (status : Z) :
  (status = 200%Z /\ http_response status = response_success)
  \/ (status = 403%Z /\ http_response status = response_denied)
  \/ (status <> 200%Z /\ status <> 403%Z /\ http_response status = response_failed).
Proof.
  unfold http_response.
  destruct (Z.eqb_spec status 200) as [-> | H200]; [by left |].
  destruct (Z.eqb_spec status 403) as [-> | H403]; [right; by left |].
  right. right. done.
Qed.

(** X18. [http_response] answers with the 500 shape for every status
    other than 200 and 403, so the status it reports is the one it was
    given only for 200, 403 and 500. *)
Theorem http_response_defaults_to_failure (status : Z) :
  (http_response status = response_failed <-> status <> 200%Z /\ status <> 403%Z)
  /\ (statusCode (http_response status) = status
      <-> status = 200%Z \/ status = 403%Z \/ status = 500%Z)
  /\ (http_response status = response_success <-> status = 200%Z)
  /\ (http_response status = response_denied <-> status = 403%Z).
Proof.
  assert (Hcode : forall r1 r2 : HttpResponse, r1 = r2 -> statusCode r1 = statusCode r2)
    by (by intros ? ? ->).
  destruct (http_response_cases status) as [[-> ->] | [[-> ->] | (H200 & H403 & ->)]];
    (split; [| split; [| split]]); split; intros H;
    try (apply Hcode in H); cbn in *; try done; try lia; intuition lia.
Qed.

Section ImportResult.
Context (out : Outside).

(** The names that enter the result of an import, in the order of the
    attempts. *)
Lemma result_names_sublist evs :
  exists names,
    existing_of evs ++ imported_of evs ≡ₚ names
    /\ names `sublist_of` attempted_of evs.
Proof.
  unfold existing_of, imported_of, attempted_of.
  induction evs as [|ev evs (names & Hperm & Hsub)]; [by exists [] |].
  destruct ev as [| n k [[code|nm]|] | | |]; cbn [omap list_omap];
    try (exists names; split; [exact Hperm | exact Hsub]).
  - destruct (str_eqb code _); cbn [mbind option_bind].
    + exists (n :: names). split; [by constructor | by constructor].
    + exists names. split; [exact Hperm | by apply sublist_cons].
  - exists names. split; [exact Hperm | by apply sublist_cons].
  - exists (n :: names). split; [| by constructor].
    cbn [mbind option_bind]. rewrite <- Permutation_middle. by constructor.
Qed.

Lemma nonfatal_import_is_cloud_call ev :
  is_nonfatal_import ev = true -> is_cloud_call ev = true.
Proof. by destruct ev. Qed.

Lemma fatal_import_is_cloud_call ev :
  is_fatal_import ev = true -> is_cloud_call ev = true.
Proof. by destruct ev. Qed.

(** The import calls the provider only. *)
Lemma upload_aws_key_pairs_calls users w :
  exists evs,
    (upload_aws_key_pairs out users w).2 = add_events evs w
    /\ Forall (fun ev => is_cloud_call ev = true) evs.
Proof.
  rewrite upload_aws_key_pairs_run. cbn [snd].
  destruct (import_loop_spec out users [] [] w) as (evs & Hw & _ & Hres).
  exists evs. split; [done |].
  destruct Hres as [(_ & evs0 & ev & -> & Hf & Hnf) | (_ & Hnf & _)].
  - apply Forall_app. split.
    + eapply Forall_impl; [exact Hnf |]. apply nonfatal_import_is_cloud_call.
    + repeat constructor. by apply fatal_import_is_cloud_call.
  - eapply Forall_impl; [exact Hnf |]. apply nonfatal_import_is_cloud_call.
Qed.

(** Clean calls the provider only. *)
Lemma clean_aws_key_pairs_calls r w :
  exists evs,
    (clean_aws_key_pairs out r w).2 = add_events evs w
    /\ Forall (fun ev => is_cloud_call ev = true) evs.
Proof.
  destruct r as [|[|x l]].
  - exists []. by rewrite add_events_nil.
  - exists []. by rewrite add_events_nil.
  - rewrite clean_aws_key_pairs_cons. cbv zeta.
    destruct (describe_key_pairs out (events w)) as [e|names].
    + exists [EvDescribeKeyPairs (inl e)]. split; [done | by repeat constructor].
    + destruct (clean_loop_trace out (x :: l) (py_sort (filter has_marker names)) []
                  (add_event (EvDescribeKeyPairs (inr names)) w)) as (evs & Hw & Hres).
      exists (EvDescribeKeyPairs (inr names) :: evs). rewrite Hw, add_events_cons.
      split; [done |]. constructor; [done |].
      destruct (clean_loop out (x :: l) _ [] _).1 as [d|e].
      * destruct Hres as [_ ->]. apply Forall_fmap, Forall_forall. done.
      * destruct Hres as (done & n & le & rest & _ & -> & _).
        apply Forall_app. split; [apply Forall_fmap, Forall_forall; done |].
        by repeat constructor.
Qed.

(** The steps before the import make HTTP requests only, and they return
    only after the file was written. *)
Lemma fetch_and_render_calls w :
  exists gets,
    events (fetch_and_render out w).2 = events w ++ gets
    /\ Forall (fun ev => is_get ev = true) gets
    /\ environ (fetch_and_render out w).2 = environ w
    /\ match (fetch_and_render out w).1 with
       | Ret _ => init_conf (fetch_and_render out w).2 <> None
       | Raise _ => True
       end.
Proof.
  unfold fetch_and_render, bind, environ_get, fetch_users.
  destruct (environ w !! py "contents_url") as [d|];
    [| exists []; by rewrite app_nil_r].
  destruct (environ w !! py "github_token") as [t|];
    [| exists []; by rewrite app_nil_r].
  match goal with
  | |- context [get_repo_contents out ?dir ?hdrs w] =>
      pose proof (get_repo_contents_world out dir hdrs w) as Hw1;
      destruct (get_repo_contents out dir hdrs w) as [[data|e] w1];
      cbn [snd] in Hw1; subst w1;
      [destruct (fetch_users_loop_trace out data dir hdrs []
                   (add_event (EvGet dir hdrs (requests_get out (events w) dir hdrs)) w))
         as (evs & Hw2 & Hget & _);
       destruct (fetch_users_loop out data dir hdrs [] _) as [[users|e] w2];
       cbn [snd] in Hw2; subst w2;
       exists (EvGet dir hdrs (requests_get out (events w) dir hdrs) :: evs)
      | exists [EvGet dir hdrs (requests_get out (events w) dir hdrs)];
        split; [done | split; [by repeat constructor | done]]]
  end.
  - rewrite render_template_run. destruct users as [|kv users].
    + cbn. rewrite <- app_assoc. split; [done |]. split; [by constructor | done].
    + destruct (render_init_j2 out (kv :: users)) as [e|config]; cbn;
        rewrite <- app_assoc; (split; [done |]); (split; [by constructor |]); done.
  - cbn. rewrite <- app_assoc. split; [done |]. split; [by constructor | done].
Qed.

End ImportResult.

(** X19. Whatever the provider answers, the list that
    [upload_aws_key_pairs] returns is sorted, is no longer than the map,
    and holds no name twice when the users of the map are distinct. *)
Theorem upload_aws_key_pairs_result_is_sorted_set (out : Outside)
    (users : list (pystr * pystr)) (w : World) :
  match (upload_aws_key_pairs out users w).1 with
  | Ret r =>
      Sorted str_le (names_of r)
      /\ (length (names_of r) <= length users)%nat
      /\ (NoDup users.*1 -> NoDup (names_of r))
  | Raise _ => False
  end.
Proof.
  rewrite upload_aws_key_pairs_run. cbn [fst].
  destruct (import_loop_spec out users [] [] w) as (evs & _ & Hatt & Hres).
  destruct Hres as [(-> & _) | (-> & _)]; cbn [names_of app].
  - split; [constructor |]. split; [cbn; lia | constructor].
  - destruct (result_names_sublist evs) as (names & Hperm & Hsub).
    assert (Hsub' : names `sublist_of` derived_names users).
    { etransitivity; [exact Hsub |]. rewrite Hatt. apply sublist_take. }
    split; [apply py_sort_Sorted |]. split.
    + rewrite py_sort_Permutation, Hperm.
      apply sublist_length in Hsub'. unfold derived_names in Hsub'.
      by rewrite length_fmap in Hsub'.
    + intros Hnd. apply py_sort_NoDup. rewrite Hperm.
      eapply sublist_NoDup; [| exact Hsub'].
      change (NoDup (((fun u => u ++ gh_key) ∘ fst) <$> users)).
      rewrite list_fmap_compose. apply NoDup_fmap_2; [| done].
      intros u1 u2 Hu. by apply app_inv_tail in Hu.
Qed.

(** X19, witness: alice is rejected by the provider and bob is imported;
    the result holds [bob-gh-key] once. *)
Lemma upload_aws_key_pairs_result_is_sorted_set_witness :
  NoDup [py "bob-gh-key"].
Proof.
  pose proof (upload_aws_key_pairs_result_is_sorted_set Sim.rejecting Sim.two_users
                Sim.start) as H.
  change (upload_aws_key_pairs Sim.rejecting Sim.two_users Sim.start).1
    with (@Ret py_result (PyList [py "bob-gh-key"])) in H.
  destruct H as (_ & _ & H). apply H.
  apply (bool_decide_unpack _). vm_compute. exact I.
Defined.

(** X20. Every run fetches before it reconciles: the calls of a run are a
    series of HTTP requests followed by a series of calls to the cloud
    provider, the environment is left alone, and a call to the provider is
    made only after [/tmp/init.conf] was written. *)
Theorem lambda_handler_fetches_before_it_reconciles (out : Outside) (event : LambdaEvent)
    (context : PyContext) (w : World) :
  exists gets cloud,
    events (lambda_handler out event context w).2 = events w ++ gets ++ cloud
    /\ Forall (fun ev => is_get ev = true) gets
    /\ Forall (fun ev => is_cloud_call ev = true) cloud
    /\ environ (lambda_handler out event context w).2 = environ w
    /\ (cloud = [] \/ init_conf (lambda_handler out event context w).2 <> None).
Proof.
  unfold lambda_handler, bind.
  pose proof (auth_check_world event context w) as Hw1.
  destruct (auth_check event context w) as [[[|]|e] w1]; cbn [snd negb] in *; subst w1;
    [| exists [], []; rewrite !app_nil_r; repeat split; try done; by left ..].
  destruct (fetch_and_render_calls out w) as (gets & Hev & Hget & Henv & Hconf).
  destruct (fetch_and_render out w) as [[p|e] w2]; cbn [fst snd] in *;
    [| exists gets, []; rewrite app_nil_r; repeat split; try done; by left].
  cbv zeta.
  destruct (upload_aws_key_pairs_calls out p.1 w2) as (evs3 & Hw3 & Hc3).
  destruct (upload_aws_key_pairs out p.1 w2) as [[aws|e] w3]; cbn [snd] in Hw3; subst w3;
    [| exists gets, evs3; cbn; rewrite Hev, Henv, app_assoc;
       repeat split; try done; by right].
  destruct (truthy aws); cbn [negb];
    [| exists gets, evs3; cbn; rewrite Hev, Henv, app_assoc;
       repeat split; try done; by right].
  destruct (clean_aws_key_pairs_calls out aws (add_events evs3 w2)) as (evs4 & Hw4 & Hc4).
  destruct (clean_aws_key_pairs out aws (add_events evs3 w2)) as [[dl|e] w4];
    cbn [snd] in Hw4; subst w4;
    [| exists gets, (evs3 ++ evs4); cbn; rewrite Hev, Henv, !app_assoc;
       repeat split; try done; [by apply Forall_app | by right]].
  rewrite upload_to_s3_run. cbn [init_conf add_events].
  destruct (init_conf w2) as [conf|] eqn:Hc2; [| done].
  exists gets, (evs3 ++ evs4 ++ [EvUploadFile (py "/tmp/init.conf") p.2 (py "init.conf")
                  (upload_file out (events (add_events evs4 (add_events evs3 w2)))
                     (py "/tmp/init.conf") p.2 (py "init.conf"))]).
  destruct (upload_file out _ _ _ _); cbn; rewrite Hev, Henv, Hc2, !app_assoc;
    (repeat split; try done;
     [repeat (apply Forall_app; split); try done; by repeat constructor | by right]).
Qed.
